(** * vfsgen: the generator (generate.go) and the file system it generates

    The development follows src/generate.go.  [Module Gen] embeds the
    build-time half (readDirPaths, findFiles, writeAssets, Translate);
    [Module Rt] embeds the Go code that writeVFS emits verbatim (Open,
    compressedFile, compressedFileInstance, dir) together with the
    initializer that writeAssets emits for AssetsFS.

    Go values are modelled as follows: a string is a [string] (a sequence
    of bytes), a []byte is a [list byte], int, int64 and os.FileMode are
    [Z], a (T, error) result of which exactly one half is nil is a
    [result T], and a call that may panic returns an [outcome]. *)

From Stdlib Require Import ZArith Lia Ascii String.
From stdpp Require Import base option list gmap strings pretty sorting.

Local Open Scope Z_scope.

Abbreviation byte := Byte.byte.

(** ** Errors, results, outcomes *)

(** The error values that occur: the sentinels os.ErrNotExist, io.EOF and
    filepath.SkipDir, and the values made by fmt.Errorf or returned by the
    source file system. *)
Inductive error : Type :=
| ErrNotExist
| EOF
| SkipDir
| errorString (msg : string).

Definition Error (e : error) : string :=
  match e with
  | ErrNotExist => "file does not exist"
  | EOF => "EOF"
  | SkipDir => "skip this directory"
  | errorString msg => msg
  end.

Global Instance error_eq_dec : EqDecision error.
Proof. solve_decision. Defined.

Inductive result (A : Type) : Type :=
| Ok (a : A)
| Err (e : error).
Arguments Ok {A} a.
Arguments Err {A} e.

(** What a Go call does: it returns, it panics with a value (rendered as
    its message), or, for the fuelled walker only, it has not finished
    within the fuel. *)
Inductive outcome (A : Type) : Type :=
| Returns (a : A)
| Panics (v : string)
| Diverges.
Arguments Returns {A} a.
Arguments Panics {A} v.
Arguments Diverges {A}.

Definition is_panic {A} (o : outcome A) : bool :=
  match o with Panics _ => true | _ => false end.

Definition nil_dereference : string :=
  "runtime error: invalid memory address or nil pointer dereference".

Definition nil_conversion : string :=
  "interface conversion: interface is nil".

(** ** Strings as Go compares them *)

(** Go compares strings bytewise, and so does [String.le], the order of
    [String.leb].  sort.Strings: the result of sorting strings in
    increasing order does not depend on the algorithm, equal strings being
    indistinguishable. *)
Definition sort_Strings (l : list string) : list string := merge_sort String.le l.

(** ** The packages the generator and the generated code import *)

(** The operations of imported packages that the code calls and that are
    not part of this repository, and StringWriter, which is. *)
Class GoLib : Type := {
  (** time.Time with MarshalText and UnmarshalText *)
  Time : Type;
  MarshalText : Time → result string;
  UnmarshalText : string → result Time;
  (** the verb %q of fmt: a string as a Go string literal *)
  Quote : string → string;
  (** path.Join of two elements and path.Base *)
  Join : string → string → string;
  Base : string → string;
  (** compress/gzip: everything a gzip.Writer has written to its sink
      once the bytes were written to it and it was closed *)
  gzip_Write : list byte → list byte;
  (** compress/gzip: gzip.NewReader fails on a bad header; otherwise the
      reader delivers these bytes and then ends with this error (io.EOF
      for a sound stream) *)
  gzip_NewReader : list byte → result (list byte * error);
  (** StringWriter: the text that its Write method writes to the wrapped
      writer for the bytes it is given (see [StringWriter_roundtrip]) *)
  StringWriter_Write : list byte → string;
  (** the bytes the Go compiler gives the interpreted string literal whose
      text between the quotes is the argument *)
  literal_bytes : string → list byte;
}.

(** Modelled from the spec: StringWriter, whose declaration and Write
    method are in a file of the package that is not among the sources.
    The spec asks that the bytes be escaped so that control characters
    and the escape and quote characters themselves round-trip exactly
    through the string literal. *)
Definition StringWriter_roundtrip (G : GoLib) : Prop :=
  ∀ bs, literal_bytes (StringWriter_Write bs) = bs.

(** What the generator relies on: the codec is lossless, the escaping is
    undone by the Go compiler, and a marshalled time unmarshals to
    itself. *)
Class GoLaws (G : GoLib) : Prop := {
  gzip_roundtrip : ∀ bs, gzip_NewReader (gzip_Write bs) = Ok (bs, EOF);
  escape_roundtrip : StringWriter_roundtrip G;
  time_roundtrip : ∀ t s, MarshalText t = Ok s → UnmarshalText s = Ok t;
}.

(** ** Text *)

Definition nl : string := String "010"%char EmptyString.
Definition tab : string := String "009"%char EmptyString.
Definition dq : string := String "034"%char EmptyString.

Fixpoint indent (n : nat) (s : string) : string :=
  match n with
  | O => s
  | S n' => tab +:+ indent n' s
  end.

(** The lines, each ended by a newline. *)
Fixpoint lines (ls : list string) : string :=
  match ls with
  | [] => EmptyString
  | l :: ls' => l +:+ nl +:+ lines ls'
  end.

(** * The generated code *)

Module Rt.
Section Rt.
Context {G : GoLib}.

(** type compressedFile struct *)
Record compressedFile : Type := {
  f_name : string;
  compressedContent : list byte;
  uncompressedSize : Z;
  f_modTime : Time;
}.

(** type dir struct.  An element of entries is an os.FileInfo holding a
    pointer to a record of the map assetsFS; a pointer is represented by
    the key of that record, every record being allocated once, under its
    key, by the map literal. *)
Record dir : Type := {
  d_name : string;
  entries : list string;
  d_modTime : Time;
}.

(** The dynamic values of the map: *compressedFile or *dir. *)
Inductive asset : Type :=
| File (f : compressedFile)
| Dir (d : dir).

(** type assetsFS map[string]interface{} *)
Abbreviation assetsFS := (gmap string asset).

Definition ModeDir : Z := Z.shiftl 1 31.

(** The write permission bits of a file mode: 0222. *)
Definition write_bits : Z := 146.

(** The os.FileInfo methods of *compressedFile. *)
Definition f_Name (f : compressedFile) : string := f_name f.
Definition f_Size (f : compressedFile) : Z := uncompressedSize f.
Definition f_Mode (f : compressedFile) : Z := 292 (* 0444 *).
Definition f_ModTime (f : compressedFile) : Time := f_modTime f.
Definition f_IsDir (f : compressedFile) : bool := false.

(** The os.FileInfo methods of *dir. *)
Definition d_Name (d : dir) : string := d_name d.
Definition d_Size (d : dir) : Z := 0.
Definition d_Mode (d : dir) : Z := Z.lor 493 (* 0755 *) ModeDir.
Definition d_ModTime (d : dir) : Time := d_modTime d.
Definition d_IsDir (d : dir) : bool := true.

(** os.FileInfo, with dynamic dispatch on the receiver. *)
Definition Name (a : asset) : string :=
  match a with File f => f_Name f | Dir d => d_Name d end.
Definition Size (a : asset) : Z :=
  match a with File f => f_Size f | Dir d => d_Size d end.
Definition Mode (a : asset) : Z :=
  match a with File f => f_Mode f | Dir d => d_Mode d end.
Definition ModTime (a : asset) : Time :=
  match a with File f => f_ModTime f | Dir d => d_ModTime d end.
Definition IsDir (a : asset) : bool :=
  match a with File f => f_IsDir f | Dir d => d_IsDir d end.

(** The gzip reader of an open file: the bytes it has yet to deliver and
    the error it ends with. *)
Record Reader : Type := {
  pending : list byte;
  final : error;
}.

(** type compressedFileInstance struct *)
Record compressedFileInstance : Type := {
  cf : compressedFile;
  gr : Reader;
}.

(** The http.File values that Open returns. *)
Inductive handle : Type :=
| FileHandle (i : compressedFileInstance)
| DirHandle (d : dir).

(** func (fs assetsFS) Open(path string) (http.File, error) *)
Definition Open (fs : assetsFS) (path : string) : outcome (result handle) :=
  match fs !! path with
  | None => Returns (Err ErrNotExist)
  | Some (File cf) =>
      match gzip_NewReader (compressedContent cf) with
      | Err err =>
          Panics ("unexpected error reading own gzip compressed bytes: " +:+ Error err)
      | Ok (bs, e) =>
          Returns (Ok (FileHandle {| cf := cf; gr := {| pending := bs; final := e |} |}))
      end
  | Some (Dir d) => Returns (Ok (DirHandle d))
  end.

(** func mustUnmarshalTextTime(text string) time.Time *)
Definition mustUnmarshalTextTime (text : string) : outcome Time :=
  match UnmarshalText text with
  | Err err => Panics (Error err)
  | Ok t => Returns t
  end.

(** func (f *compressedFile) Readdir(count int) ([]os.FileInfo, error) *)
Definition f_Readdir (f : compressedFile) (count : Z) : outcome (result (list string)) :=
  Returns (Err (errorString ("cannot Readdir from file " +:+ f_name f))).

(** func (f *compressedFile) Stat() (os.FileInfo, error) *)
Definition f_Stat (f : compressedFile) : outcome (result asset) :=
  Returns (Ok (File f)).


(** func (f *compressedFileInstance) Read(p []byte) (n int, err error):
    the reader fills p, of length [n], with the bytes it has; it reports
    its final error once it has none left. *)
Definition i_Read (i : compressedFileInstance) (n : nat)
  : outcome (compressedFileInstance * list byte * option error) :=
  match n, pending (gr i) with
  | O, _ => Returns (i, [], None)
  | _, [] => Returns (i, [], Some (final (gr i)))
  | _, bs =>
      Returns ({| cf := cf i; gr := {| pending := drop n bs; final := final (gr i) |} |},
               take n bs, None)
  end.

(** func (f *compressedFileInstance) Seek(offset int64, whence int) (int64, error) *)
Definition i_Seek (i : compressedFileInstance) (offset whence : Z) : outcome (Z * option error) :=
  Panics "Seek not yet implemented".

(** func (f *compressedFileInstance) Close() error: the reader is closed
    and nothing is left to deliver. *)
Definition i_Close (i : compressedFileInstance) : outcome (compressedFileInstance * option error) :=
  Returns ({| cf := cf i; gr := {| pending := []; final := final (gr i) |} |}, None).

(** func (d *dir) Read([]byte) (int, error) *)
Definition d_Read (d : dir) (n : nat) : outcome (Z * option error) :=
  Returns (0, Some (errorString ("cannot Read from directory " +:+ d_name d))).

(** func (d *dir) Seek(offset int64, whence int) (int64, error) *)
Definition d_Seek (d : dir) (offset whence : Z) : outcome (Z * option error) :=
  Returns (0, Some (errorString ("cannot Seek in directory " +:+ d_name d))).

(** func (d *dir) Close() error *)
Definition d_Close (d : dir) : outcome (option error) := Returns None.

(** func (d *dir) Readdir(count int) ([]os.FileInfo, error); log.Panicln
    panics with its arguments formatted as by Println. *)
Definition d_Readdir (d : dir) (count : Z) : outcome (result (list string)) :=
  if decide (count ≠ 0) then
    Panics ("httpDir.Readdir count unsupported value: " +:+ pretty count +:+ nl)
  else Returns (Ok (entries d)).

(** func (d *dir) Stat() (os.FileInfo, error) *)
Definition d_Stat (d : dir) : outcome (result asset) :=
  Returns (Ok (Dir d)).

(** The http.File methods, dispatched on the handle; the methods of the
    embedded *compressedFile are promoted to the instance. *)
Definition Stat (h : handle) : outcome (result asset) :=
  match h with FileHandle i => f_Stat (cf i) | DirHandle d => d_Stat d end.

Definition Readdir (h : handle) (count : Z) : outcome (result (list string)) :=
  match h with FileHandle i => f_Readdir (cf i) count | DirHandle d => d_Readdir d count end.

Definition Seek (h : handle) (offset whence : Z) : outcome (Z * option error) :=
  match h with FileHandle i => i_Seek i offset whence | DirHandle d => d_Seek d offset whence end.

Definition Read (h : handle) (n : nat) : outcome (handle * list byte * Z * option error) :=
  match h with
  | FileHandle i =>
      match i_Read i n with
      | Returns (i', bs, err) => Returns (FileHandle i', bs, Z.of_nat (length bs), err)
      | Panics v => Panics v
      | Diverges => Diverges
      end
  | DirHandle d =>
      match d_Read d n with
      | Returns (k, err) => Returns (h, [], k, err)
      | Panics v => Panics v
      | Diverges => Diverges
      end
  end.


(** ** The initializer of AssetsFS

    writeAssets emits the function literal that builds the map: a map
    literal with one [&dir{...}] or [&compressedFile{...}] per entry,
    followed by one assignment to the [entries] of each directory.  The
    emitted initializer is kept as the values its holes were filled with:
    a string written with %q is the string the Go compiler reads back,
    and the text between the quotes of [[]byte(...)] is kept as written. *)
Inductive literal : Type :=
| dirLit (name : string) (modTime : string)
| compressedFileLit (name : string) (content : string) (size : Z) (modTime : string).

Record initializer : Type := {
  elements : list (string * literal);
  assignments : list (string * list string);
}.

(** [&dir{name: ..., modTime: mustUnmarshalTextTime(...)}] and
    [&compressedFile{name: ..., compressedContent: []byte(...),
    uncompressedSize: ..., modTime: mustUnmarshalTextTime(...)}] *)
Definition eval_literal (l : literal) : outcome asset :=
  match l with
  | dirLit name modTime =>
      match mustUnmarshalTextTime modTime with
      | Returns t => Returns (Dir {| d_name := name; entries := []; d_modTime := t |})
      | Panics v => Panics v
      | Diverges => Diverges
      end
  | compressedFileLit name content size modTime =>
      match mustUnmarshalTextTime modTime with
      | Returns t =>
          Returns (File {| f_name := name; compressedContent := literal_bytes content;
                           uncompressedSize := size; f_modTime := t |})
      | Panics v => Panics v
      | Diverges => Diverges
      end
  end.

(** [assetsFS := assetsFS{ key: element, ... }] *)
Fixpoint eval_elements (els : list (string * literal)) (m : assetsFS) : outcome assetsFS :=
  match els with
  | [] => Returns m
  | (key, l) :: els' =>
      match eval_literal l with
      | Returns a => eval_elements els' (<[key := a]> m)
      | Panics v => Panics v
      | Diverges => Diverges
      end
  end.

(** [[]os.FileInfo{ assetsFS[entry].(os.FileInfo), ... }]: the type
    assertion panics on the nil interface that a missing key yields. *)
Fixpoint eval_entries (m : assetsFS) (es : list string) : outcome (list string) :=
  match es with
  | [] => Returns []
  | entry :: es' =>
      match m !! entry with
      | None => Panics nil_conversion
      | Some _ =>
          match eval_entries m es' with
          | Returns refs => Returns (entry :: refs)
          | Panics v => Panics v
          | Diverges => Diverges
          end
      end
  end.

(** The assignment to the entries of the directory under [path]: the
    left side asserts that the value under the key is a pointer to a dir. *)
Definition eval_assignment (m : assetsFS) (path : string) (es : list string) : outcome assetsFS :=
  match m !! path with
  | None => Panics nil_conversion
  | Some (File _) => Panics "interface conversion: interface {} is *compressedFile, not *dir"
  | Some (Dir d) =>
      match eval_entries m es with
      | Returns refs =>
          Returns (<[path := Dir {| d_name := d_name d; entries := refs; d_modTime := d_modTime d |}]> m)
      | Panics v => Panics v
      | Diverges => Diverges
      end
  end.

Fixpoint eval_assignments (asg : list (string * list string)) (m : assetsFS) : outcome assetsFS :=
  match asg with
  | [] => Returns m
  | (path, es) :: asg' =>
      match eval_assignment m path es with
      | Returns m' => eval_assignments asg' m'
      | Panics v => Panics v
      | Diverges => Diverges
      end
  end.

(** [var AssetsFS http.FileSystem = func() assetsFS { ... }()] *)
Definition AssetsFS (init : initializer) : outcome assetsFS :=
  match eval_elements (elements init) ∅ with
  | Returns m => eval_assignments (assignments init) m
  | Panics v => Panics v
  | Diverges => Diverges
  end.

End Rt.
End Rt.

(** * The generator *)

(** The import declaration that writeAssets prints first. *)
Definition imports_text : string :=
  lines [
    "import (";
    indent 1 (dq +:+ "bytes" +:+ dq);
    indent 1 (dq +:+ "compress/gzip" +:+ dq);
    indent 1 (dq +:+ "fmt" +:+ dq);
    indent 1 (dq +:+ "io" +:+ dq);
    indent 1 (dq +:+ "log" +:+ dq);
    indent 1 (dq +:+ "net/http" +:+ dq);
    indent 1 (dq +:+ "os" +:+ dq);
    indent 1 (dq +:+ "time" +:+ dq);
    ")";
    EmptyString
  ].

(** The type declaration and the head of the initializer. *)
Definition map_head_text : string :=
  lines [
    "type assetsFS map[string]interface{}";
    EmptyString;
    "var AssetsFS http.FileSystem = func() assetsFS {";
    indent 1 "assetsFS := assetsFS{"
  ].

(** The code that writeVFS prints, embedded in [Module Rt]. *)
Definition vfs_text : string :=
  lines [
    EmptyString;
    "func (fs assetsFS) Open(path string) (http.File, error) {";
    indent 1 "f, ok := fs[path]";
    indent 1 "if !ok {";
    indent 2 "return nil, os.ErrNotExist";
    indent 1 "}";
    EmptyString;
    indent 1 "if cf, ok := f.(*compressedFile); ok {";
    indent 2 "gr, err := gzip.NewReader(bytes.NewReader(cf.compressedContent))";
    indent 2 "if err != nil {";
    indent 3 "// This should never happen because we generate the gzip bytes such that they are always valid.";
    indent 3 ("panic(" +:+ dq +:+ "unexpected error reading own gzip compressed bytes: " +:+ dq +:+ " + err.Error())");
    indent 2 "}";
    indent 2 "return &compressedFileInstance{";
    indent 3 "compressedFile: cf,";
    indent 3 "gr:             gr,";
    indent 2 "}, nil";
    indent 1 "}";
    EmptyString;
    indent 1 "return f.(http.File), nil";
    "}";
    EmptyString;
    "func mustUnmarshalTextTime(text string) time.Time {";
    indent 1 "var t time.Time";
    indent 1 "err := t.UnmarshalText([]byte(text))";
    indent 1 "if err != nil {";
    indent 2 "panic(err)";
    indent 1 "}";
    indent 1 "return t";
    "}";
    EmptyString;
    "// compressedFile is ...";
    "type compressedFile struct {";
    indent 1 "name              string";
    indent 1 "compressedContent []byte";
    indent 1 "uncompressedSize  int64";
    indent 1 "modTime           time.Time";
    "}";
    EmptyString;
    "func (f *compressedFile) Readdir(count int) ([]os.FileInfo, error) {";
    indent 1 ("return nil, fmt.Errorf(" +:+ dq +:+ "cannot Readdir from file %s" +:+ dq +:+ ", f.name)");
    "}";
    "func (f *compressedFile) Stat() (os.FileInfo, error) { return f, nil }";
    EmptyString;
    "func (f *compressedFile) GzipBytes() []byte {";
    indent 1 ("log.Println(" +:+ dq +:+ "using GzipBytes for" +:+ dq +:+ ", f.name)");
    indent 1 "return f.compressedContent";
    "}";
    EmptyString;
    "func (f *compressedFile) Name() string       { return f.name }";
    "func (f *compressedFile) Size() int64        { return f.uncompressedSize }";
    "func (f *compressedFile) Mode() os.FileMode  { return 0444 }";
    "func (f *compressedFile) ModTime() time.Time { return f.modTime }";
    "func (f *compressedFile) IsDir() bool        { return false }";
    "func (f *compressedFile) Sys() interface{}   { return nil }";
    EmptyString;
    "type compressedFileInstance struct {";
    indent 1 "*compressedFile";
    indent 1 "gr io.ReadCloser";
    "}";
    EmptyString;
    "func (f *compressedFileInstance) Read(p []byte) (n int, err error) {";
    indent 1 "return f.gr.Read(p)";
    "}";
    "func (f *compressedFileInstance) Seek(offset int64, whence int) (int64, error) {";
    indent 1 ("panic(" +:+ dq +:+ "Seek not yet implemented" +:+ dq +:+ ")");
    "}";
    "func (f *compressedFileInstance) Close() error {";
    indent 1 "return f.gr.Close()";
    "}";
    EmptyString;
    "// dir is ...";
    "type dir struct {";
    indent 1 "name    string";
    indent 1 "entries []os.FileInfo";
    indent 1 "modTime time.Time";
    "}";
    EmptyString;
    "func (d *dir) Read([]byte) (int, error) {";
    indent 1 ("return 0, fmt.Errorf(" +:+ dq +:+ "cannot Read from directory %s" +:+ dq +:+ ", d.name)");
    "}";
    "func (d *dir) Seek(offset int64, whence int) (int64, error) {";
    indent 1 ("return 0, fmt.Errorf(" +:+ dq +:+ "cannot Seek in directory %s" +:+ dq +:+ ", d.name)");
    "}";
    "func (d *dir) Close() error { return nil }";
    "func (d *dir) Readdir(count int) ([]os.FileInfo, error) {";
    indent 1 "if count != 0 {";
    indent 2 ("log.Panicln(" +:+ dq +:+ "httpDir.Readdir count unsupported value:" +:+ dq +:+ ", count)");
    indent 1 "}";
    indent 1 "return d.entries, nil";
    "}";
    "func (d *dir) Stat() (os.FileInfo, error) { return d, nil }";
    EmptyString;
    "func (d *dir) Name() string       { return d.name }";
    "func (d *dir) Size() int64        { return 0 }";
    "func (d *dir) Mode() os.FileMode  { return 0755 | os.ModeDir }";
    "func (d *dir) ModTime() time.Time { return d.modTime }";
    "func (d *dir) IsDir() bool        { return true }";
    "func (d *dir) Sys() interface{}   { return nil }"
  ].


Module Gen.
Section Gen.
Context {G : GoLib}.

(** ** The source file system *)

(** os.FileInfo, as far as the generator looks at it. *)
Record FileInfo : Type := {
  Name : string;
  Size : Z;
  ModTime : Time;
  IsDir : bool;
}.

(** The http.FileSystem that is walked and read, by the three uses the
    generator makes of it: vfsutil.Stat (inside vfsutil.Walk),
    vfsutil.ReadDir, and Open followed by io.Copy, which yields the bytes
    read up to the end of the file or to a read error (io.Copy's result
    is dropped by the caller).  Each of the three may fail on its own: a
    file that the walk could describe may be gone or unreadable when it
    is opened to be written. *)
Record FileSystem : Type := {
  Stat : string → result FileInfo;
  ReadDir : string → result (list FileInfo);
  Open : string → result (list byte);
}.

(** ** Assets *)

(** The generator's own dir and compressedFile, whose declarations are in
    a file of the package that is not among the sources; the fields are
    those that findFiles sets and writeAssets reads. *)
Record dir : Type := {
  d_name : string;
  entries : list string;
  d_modTime : Time;
}.

Record compressedFile : Type := {
  f_name : string;
  uncompressedSize : Z;
  f_modTime : Time;
}.

(** The dynamic type of pathAsset.asset. *)
Inductive asset : Type :=
| Dir (d : dir)
| File (f : compressedFile).

(** type pathAsset struct *)
Record pathAsset : Type := {
  path : string;
  asset_of : asset;
}.

(** ** readDirPaths *)

(** func readDirPaths(fs http.FileSystem, dirname string) ([]string, error) *)
Definition readDirPaths (fs : FileSystem) (dirname : string) : result (list string) :=
  match ReadDir fs dirname with
  | Err err => Err err
  | Ok fis => Ok (sort_Strings (map (λ fi, Join dirname (Name fi)) fis))
  end.

(** ** findFiles *)

(** What the walk changes: the table of contents behind the pointer toc
    and the lines written with log.Printf. *)
Record walkState : Type := {
  toc : list pathAsset;
  logged : list string;
}.

Definition append_toc (pa : pathAsset) (st : walkState) : walkState :=
  {| toc := toc st ++ [pa]; logged := logged st |}.

Definition log_Printf (line : string) (st : walkState) : walkState :=
  {| toc := toc st; logged := logged st ++ [line] |}.

(** The closure walkFn of findFiles.  vfsutil.Walk passes a nil FileInfo
    together with the error of a failed Stat. *)
Definition walkFn (fs : FileSystem) (path : string) (fi : option FileInfo)
    (err : option error) (st : walkState) : outcome (option error * walkState) :=
  match err with
  | Some err =>
      Returns (None, log_Printf ("can't stat file " +:+ path +:+ ": " +:+ Error err +:+ nl) st)
  | None =>
      match fi with
      | None => Panics nil_dereference
      | Some fi =>
          if IsDir fi then
            match readDirPaths fs path with
            | Err err => Returns (Some err, st)
            | Ok entries =>
                Returns (None, append_toc
                  {| path := path;
                     asset_of := Dir {| d_name := Base path; entries := entries;
                                        d_modTime := ModTime fi |} |} st)
            end
          else
            Returns (None, append_toc
              {| path := path;
                 asset_of := File {| f_name := Base path; uncompressedSize := Size fi;
                                     f_modTime := ModTime fi |} |} st)
      end
  end.

(** *** vfsutil.Walk

    The walker of the imported package github.com/shurcooL/go/vfs/httpfs/
    vfsutil, which is path/filepath.Walk over an http.FileSystem: it
    calls walkFn for the root and, in lexical order, for every entry
    below; it stops with the first error walkFn returns, unless that
    error is SkipDir. *)

(** func readDirNames(fs http.FileSystem, dirname string) ([]string, error) *)
Definition readDirNames (fs : FileSystem) (dirname : string) : result (list string) :=
  match ReadDir fs dirname with
  | Err err => Err err
  | Ok fis => Ok (sort_Strings (map Name fis))
  end.

(** The loop over the names of a directory in walk; [walk] is the
    recursive call. *)
Fixpoint walkNames (walk : string → FileInfo → walkState → outcome (option error * walkState))
    (fs : FileSystem) (path : string) (names : list string) (st : walkState)
  : outcome (option error * walkState) :=
  match names with
  | [] => Returns (None, st)
  | name :: names' =>
      let filename := Join path name in
      match Stat fs filename with
      | Err err =>
          match walkFn fs filename None (Some err) st with
          | Returns (Some err', st') =>
              if decide (err' ≠ SkipDir) then Returns (Some err', st')
              else walkNames walk fs path names' st'
          | Returns (None, st') => walkNames walk fs path names' st'
          | Panics v => Panics v
          | Diverges => Diverges
          end
      | Ok fileInfo =>
          match walk filename fileInfo st with
          | Returns (Some err', st') =>
              if negb (IsDir fileInfo) || bool_decide (err' ≠ SkipDir)
              then Returns (Some err', st')
              else walkNames walk fs path names' st'
          | Returns (None, st') => walkNames walk fs path names' st'
          | Panics v => Panics v
          | Diverges => Diverges
          end
      end
  end.

(** func walk(fs, path, info, walkFn) error.  The recursion follows the
    file system, which need not be well founded: [fuel] bounds its depth. *)
Fixpoint walk (fuel : nat) (fs : FileSystem) (path : string) (info : FileInfo)
    (st : walkState) : outcome (option error * walkState) :=
  match fuel with
  | O => Diverges
  | S fuel' =>
      match walkFn fs path (Some info) None st with
      | Returns (Some err, st') =>
          if IsDir info && bool_decide (err = SkipDir) then Returns (None, st')
          else Returns (Some err, st')
      | Returns (None, st') =>
          if negb (IsDir info) then Returns (None, st')
          else
            match readDirNames fs path with
            | Err err => walkFn fs path (Some info) (Some err) st'
            | Ok names => walkNames (walk fuel' fs) fs path names st'
            end
      | Panics v => Panics v
      | Diverges => Diverges
      end
  end.

(** func Walk(fs http.FileSystem, root string, walkFn filepath.WalkFunc) error *)
Definition Walk (fuel : nat) (fs : FileSystem) (root : string) (st : walkState)
  : outcome (option error * walkState) :=
  match Stat fs root with
  | Err err => walkFn fs root None (Some err) st
  | Ok info => walk fuel fs root info st
  end.

(** func findFiles(fs http.FileSystem, toc *[]pathAsset) error *)
Definition findFiles (fuel : nat) (fs : FileSystem) (st : walkState)
  : outcome (option error * walkState) :=
  match Walk fuel fs "/" st with
  | Returns (Some err, st') => Returns (Some err, st')
  | Returns (None, st') => Returns (None, st')
  | Panics v => Panics v
  | Diverges => Diverges
  end.

(** ** Writing *)

(** The io.Writer that is written to: a writer takes what is written, or
    it has failed and every write returns its error (as a bufio.Writer
    does once a write to the file behind it has failed). *)
Record writer : Type := {
  out : string;
  failed : option error;
}.

(** Code that writes and may panic. *)
Definition W (A : Type) : Type := writer → outcome A * writer.

Definition ret {A} (a : A) : W A := λ w, (Returns a, w).

Definition panic {A} (v : string) : W A := λ w, (Panics v, w).

Definition bind {A B} (m : W A) (k : A → W B) : W B :=
  λ w, match m w with
       | (Returns a, w') => k a w'
       | (Panics v, w') => (Panics v, w')
       | (Diverges, w') => (Diverges, w')
       end.

(** fmt.Fprint and fmt.Fprintf with the text already formatted; the error
    is the second result. *)
Definition Fprintf (s : string) : W (option error) :=
  λ w, match failed w with
       | Some err => (Returns (Some err), w)
       | None => (Returns None, {| out := out w +:+ s; failed := None |})
       end.

(** [_, err = m; if err != nil { return err }] *)
Definition checked (m : W (option error)) (k : W (option error)) : W (option error) :=
  bind m (λ err, match err with Some e => ret (Some e) | None => k end).

(** A call whose results are dropped. *)
Definition dropped {A B} (m : W A) (k : W B) : W B := bind m (λ _, k).

Notation "'check!' m ;; k" := (checked m k)
  (at level 100, m at next level, k at level 200, right associativity,
   format "'[v' 'check!'  m  ;; '/' k ']'").
Notation "'call!' m ;; k" := (dropped m k)
  (at level 100, m at next level, k at level 200, right associativity,
   format "'[v' 'call!'  m  ;; '/' k ']'").

(** ** writeAssets *)

(** The configuration, as far as Translate and writeAssets read it. *)
Record Config : Type := {
  Input : FileSystem;
  Output : string;
  Package : string;
  Tags : string;
}.

(** The body of the first loop of writeAssets for one entry; a result
    other than nil is returned by writeAssets. *)
Definition writeElement (c : Config) (pa : pathAsset) : W (option error) :=
  match asset_of pa with
  | Dir asset =>
      check! Fprintf (indent 2 (Quote (path pa) +:+ ": &dir{") +:+ nl) ;;
      call! Fprintf (indent 3 ("name:    " +:+ Quote (d_name asset) +:+ ",") +:+ nl) ;;
      match MarshalText (d_modTime asset) with
      | Err err => ret (Some err)
      | Ok modTimeBytes =>
          call! Fprintf (indent 3 ("modTime: mustUnmarshalTextTime(" +:+ Quote modTimeBytes +:+ "),") +:+ nl) ;;
          call! Fprintf (indent 2 "}," +:+ nl) ;;
          ret None
      end
  | File asset =>
      check! Fprintf (indent 2 (Quote (path pa) +:+ ": &compressedFile{") +:+ nl) ;;
      call! Fprintf (indent 3 ("name:              " +:+ Quote (f_name asset) +:+ ",") +:+ nl) ;;
      call! Fprintf (indent 3 ("compressedContent: []byte(" +:+ dq)) ;;
      match Open (Input c) (path pa) with
      | Err _ =>
          (* f is nil: io.Copy calls its Read *)
          panic nil_dereference
      | Ok bytes =>
          (* sw, gz, io.Copy(gz, f), gz.Close(), f.Close() *)
          call! Fprintf (StringWriter_Write (gzip_Write bytes)) ;;
          call! Fprintf (dq +:+ ")," +:+ nl) ;;
          call! Fprintf (indent 3 ("uncompressedSize:  " +:+ pretty (uncompressedSize asset) +:+ ",") +:+ nl) ;;
          match MarshalText (f_modTime asset) with
          | Err err => ret (Some err)
          | Ok modTimeBytes =>
              call! Fprintf (indent 3 ("modTime:           mustUnmarshalTextTime(" +:+ Quote modTimeBytes +:+ "),") +:+ nl) ;;
              call! Fprintf (indent 2 "}," +:+ nl) ;;
              ret None
          end
      end
  end.

(** The first loop over toc. *)
Fixpoint writeElements (c : Config) (toc : list pathAsset) : W (option error) :=
  match toc with
  | [] => ret None
  | pa :: toc' =>
      bind (writeElement c pa) (λ err,
        match err with
        | Some e => ret (Some e)
        | None => writeElements c toc'
        end)
  end.

(** The loop over the entries of a directory. *)
Fixpoint writeEntries (es : list string) : W unit :=
  match es with
  | [] => ret tt
  | entry :: es' =>
      call! Fprintf (indent 2 ("assetsFS[" +:+ Quote entry +:+ "].(os.FileInfo),") +:+ nl) ;;
      writeEntries es'
  end.

(** The second loop over toc. *)
Fixpoint writeAssignments (toc : list pathAsset) : W unit :=
  match toc with
  | [] => ret tt
  | pa :: toc' =>
      match asset_of pa with
      | Dir asset =>
          call! Fprintf (indent 1 ("assetsFS[" +:+ Quote (path pa) +:+ "].(*dir).entries = []os.FileInfo{") +:+ nl) ;;
          call! writeEntries (entries asset) ;;
          call! Fprintf (indent 1 "}" +:+ nl) ;;
          writeAssignments toc'
      | File _ => writeAssignments toc'
      end
  end.

(** func writeAssets(w io.Writer, c *Config, toc []pathAsset) error *)
Definition writeAssets (c : Config) (toc : list pathAsset) : W (option error) :=
  check! Fprintf imports_text ;;
  check! Fprintf map_head_text ;;
  check! writeElements c toc ;;
  check! Fprintf (indent 1 "}" +:+ nl +:+ nl) ;;
  call! writeAssignments toc ;;
  check! Fprintf (nl +:+ indent 1 "return assetsFS" +:+ nl +:+ "}()" +:+ nl) ;;
  ret None.

(** func writeVFS(w io.Writer) error *)
Definition writeVFS : W (option error) :=
  bind (Fprintf vfs_text) (λ err, ret err).

(** ** Translate *)

(** What is outside: Config.validate, whose declaration is in a file of
    the package that is not among the sources, and os.Create, which gives
    the writer of the output file or fails. *)
Record Env : Type := {
  validate : Config → option error;
  os_Create : string → result writer;
}.

(** What a run of Translate leaves behind: its result, the lines logged,
    and the output file if it was created (the deferred Flush and Close
    run on every way out). *)
Record run : Type := {
  returned : outcome (option error);
  log_lines : list string;
  output : option string;
}.

(** The part of Translate that writes. *)
Definition writeAll (c : Config) (toc : list pathAsset) : W (option error) :=
  check! Fprintf ("// generated via `go generate`; do not edit" +:+ nl +:+ nl) ;;
  check! (if decide (Tags c ≠ EmptyString)
          then Fprintf ("// +build " +:+ Tags c +:+ nl +:+ nl)
          else ret None) ;;
  check! Fprintf ("package " +:+ Package c +:+ nl +:+ nl) ;;
  check! writeAssets c toc ;;
  check! writeVFS ;;
  ret None.

(** func Translate(c *Config) error *)
Definition Translate (fuel : nat) (env : Env) (c : Config) : run :=
  match validate env c with
  | Some err => {| returned := Returns (Some err); log_lines := []; output := None |}
  | None =>
      match findFiles fuel (Input c) {| toc := []; logged := [] |} with
      | Returns (Some err, st) =>
          {| returned := Returns (Some err); log_lines := logged st; output := None |}
      | Returns (None, st) =>
          match os_Create env (Output c) with
          | Err err =>
              {| returned := Returns (Some err); log_lines := logged st; output := None |}
          | Ok f =>
              let (r, buf) := writeAll c (toc st) f in
              {| returned := r; log_lines := logged st; output := Some (out buf) |}
          end
      | Panics v => {| returned := Panics v; log_lines := []; output := None |}
      | Diverges => {| returned := Diverges; log_lines := []; output := None |}
      end
  end.

(** ** The emitted initializer *)

(** The element that writeElement emits for one entry, as the values put
    into its holes; [None] when writeElement does not complete it. *)
Definition element (c : Config) (pa : pathAsset) : option (string * Rt.literal) :=
  match asset_of pa with
  | Dir asset =>
      match MarshalText (d_modTime asset) with
      | Err _ => None
      | Ok modTimeBytes => Some (path pa, Rt.dirLit (d_name asset) modTimeBytes)
      end
  | File asset =>
      match Open (Input c) (path pa), MarshalText (f_modTime asset) with
      | Ok bytes, Ok modTimeBytes =>
          Some (path pa,
                Rt.compressedFileLit (f_name asset) (StringWriter_Write (gzip_Write bytes))
                  (uncompressedSize asset) modTimeBytes)
      | _, _ => None
      end
  end.

Fixpoint elements (c : Config) (toc : list pathAsset) : option (list (string * Rt.literal)) :=
  match toc with
  | [] => Some []
  | pa :: toc' =>
      match element c pa, elements c toc' with
      | Some el, Some els => Some (el :: els)
      | _, _ => None
      end
  end.

Fixpoint assignments (toc : list pathAsset) : list (string * list string) :=
  match toc with
  | [] => []
  | pa :: toc' =>
      match asset_of pa with
      | Dir asset => (path pa, entries asset) :: assignments toc'
      | File _ => assignments toc'
      end
  end.

(** The initializer that writeAssets emits for toc, when it emits all of
    it. *)
Definition emitted (c : Config) (toc : list pathAsset) : option Rt.initializer :=
  match elements c toc with
  | Some els => Some {| Rt.elements := els; Rt.assignments := assignments toc |}
  | None => None
  end.

End Gen.
End Gen.

(** * Notions used in the statements *)

Section Notions.
Context {G : GoLib}.

(** ** The walk *)

(** The entry that walkFn appends for a path: it is determined by the
    path and the file system. *)
Definition entry_at (fs : Gen.FileSystem) (p : string) : option Gen.pathAsset :=
  match Gen.Stat fs p with
  | Err _ => None
  | Ok fi =>
      if Gen.IsDir fi then
        match Gen.readDirPaths fs p with
        | Err _ => None
        | Ok es =>
            Some {| Gen.path := p;
                    Gen.asset_of := Gen.Dir {| Gen.d_name := Base p; Gen.entries := es;
                                               Gen.d_modTime := Gen.ModTime fi |} |}
        end
      else
        Some {| Gen.path := p;
                Gen.asset_of := Gen.File {| Gen.f_name := Base p;
                                            Gen.uncompressedSize := Gen.Size fi;
                                            Gen.f_modTime := Gen.ModTime fi |} |}
  end.

(** Every entry of the table of contents is the one of its path. *)
Definition toc_described (fs : Gen.FileSystem) (st : Gen.walkState) : Prop :=
  ∀ pa, pa ∈ Gen.toc st → entry_at fs (Gen.path pa) = Some pa.

(** The type of walk, once the fuel and the file system are given. *)
Definition walker : Type :=
  string → Gen.FileInfo → Gen.walkState → outcome (option error * Gen.walkState).

Definition preserves (fs : Gen.FileSystem) (w : walker) : Prop :=
  ∀ path info st r st',
    Gen.Stat fs path = Ok info → toc_described fs st →
    w path info st = Returns (r, st') → toc_described fs st'.



(** The line that walkFn logs. *)
Definition cant_stat (path : string) (err : error) : string :=
  "can't stat file " +:+ path +:+ ": " +:+ Error err +:+ nl.

(** ** The same tree *)

Definition same_listing (r1 r2 : result (list Gen.FileInfo)) : Prop :=
  match r1, r2 with
  | Ok l1, Ok l2 => l1 ≡ₚ l2
  | Err e1, Err e2 => e1 = e2
  | _, _ => False
  end.

(** Two file systems hold the same tree: every path is described alike
    and read alike, and a directory is listed with the same entries, in
    whatever order. *)
Record same_tree (fs1 fs2 : Gen.FileSystem) : Prop := {
  same_Stat : ∀ p, Gen.Stat fs1 p = Gen.Stat fs2 p;
  same_ReadDir : ∀ p, same_listing (Gen.ReadDir fs1 p) (Gen.ReadDir fs2 p);
  same_Open : ∀ p, Gen.Open fs1 p = Gen.Open fs2 p;
}.

(** ** The generated map *)

(** The element of a map literal that counts for a key: the last one. *)
Fixpoint defined (els : list (string * Rt.literal)) (k : string) : option Rt.literal :=
  match els with
  | [] => None
  | (key, l) :: els' =>
      match defined els' k with
      | Some l' => Some l'
      | None => if decide (key = k) then Some l else None
      end
  end.

(** The assignment that counts for a key: the last one. *)
Fixpoint assigned (asg : list (string * list string)) (k : string) : option (list string) :=
  match asg with
  | [] => None
  | (path, es) :: asg' =>
      match assigned asg' k with
      | Some es' => Some es'
      | None => if decide (path = k) then Some es else None
      end
  end.

Definition with_entries (es : option (list string)) (a : Rt.asset) : Rt.asset :=
  match a, es with
  | Rt.Dir d, Some es =>
      Rt.Dir {| Rt.d_name := Rt.d_name d; Rt.entries := es; Rt.d_modTime := Rt.d_modTime d |}
  | _, _ => a
  end.

(** What the record under a key of the generated map is, given the entry
    of the table of contents it was emitted for. *)
Definition record_of (c : Gen.Config) (toc : list Gen.pathAsset)
    (pa : Gen.pathAsset) (a : Rt.asset) : Prop :=
  match Gen.asset_of pa with
  | Gen.File f =>
      ∃ bytes, Gen.Open (Gen.Input c) (Gen.path pa) = Ok bytes
        ∧ a = Rt.File {| Rt.f_name := Gen.f_name f;
                         Rt.compressedContent := gzip_Write bytes;
                         Rt.uncompressedSize := Gen.uncompressedSize f;
                         Rt.f_modTime := Gen.f_modTime f |}
  | Gen.Dir d =>
      ∃ es, (Gen.path pa, es) ∈ Gen.assignments toc
        ∧ a = Rt.Dir {| Rt.d_name := Gen.d_name d; Rt.entries := es;
                        Rt.d_modTime := Gen.d_modTime d |}
  end.

(** ** The text of an initializer *)

Definition render_element (el : string * Rt.literal) : string :=
  match el with
  | (key, Rt.dirLit name modTime) =>
      (indent 2 (Quote key +:+ ": &dir{") +:+ nl)
      +:+ (indent 3 ("name:    " +:+ Quote name +:+ ",") +:+ nl)
      +:+ (indent 3 ("modTime: mustUnmarshalTextTime(" +:+ Quote modTime +:+ "),") +:+ nl)
      +:+ (indent 2 "}," +:+ nl)
  | (key, Rt.compressedFileLit name content size modTime) =>
      (indent 2 (Quote key +:+ ": &compressedFile{") +:+ nl)
      +:+ (indent 3 ("name:              " +:+ Quote name +:+ ",") +:+ nl)
      +:+ indent 3 ("compressedContent: []byte(" +:+ dq)
      +:+ content
      +:+ (dq +:+ ")," +:+ nl)
      +:+ (indent 3 ("uncompressedSize:  " +:+ pretty size +:+ ",") +:+ nl)
      +:+ (indent 3 ("modTime:           mustUnmarshalTextTime(" +:+ Quote modTime +:+ "),") +:+ nl)
      +:+ (indent 2 "}," +:+ nl)
  end.

Fixpoint render_elements (els : list (string * Rt.literal)) : string :=
  match els with
  | [] => EmptyString
  | el :: els' => render_element el +:+ render_elements els'
  end.

Fixpoint render_entries (es : list string) : string :=
  match es with
  | [] => EmptyString
  | entry :: es' =>
      (indent 2 ("assetsFS[" +:+ Quote entry +:+ "].(os.FileInfo),") +:+ nl)
      +:+ render_entries es'
  end.

Fixpoint render_assignments (asg : list (string * list string)) : string :=
  match asg with
  | [] => EmptyString
  | (path, es) :: asg' =>
      (indent 1 ("assetsFS[" +:+ Quote path +:+ "].(*dir).entries = []os.FileInfo{") +:+ nl)
      +:+ render_entries es
      +:+ (indent 1 "}" +:+ nl)
      +:+ render_assignments asg'
  end.

(** The text of the initializer, between the package clause and the
    code of writeVFS. *)
Definition render (init : Rt.initializer) : string :=
  imports_text
  +:+ map_head_text
  +:+ render_elements (Rt.elements init)
  +:+ (indent 1 "}" +:+ nl +:+ nl)
  +:+ render_assignments (Rt.assignments init)
  +:+ (nl +:+ indent 1 "return assetsFS" +:+ nl +:+ "}()" +:+ nl).

End Notions.

(** * More notions *)

Section MoreNotions.
Context {G : GoLib}.

(** ** More on the walk *)

(** The tree below a path is at most [n] deep: a file, a directory that
    cannot be listed, or a directory whose entries that can be described
    are at most [n - 1] deep. *)
Inductive bounded (fs : Gen.FileSystem) : nat → string → Gen.FileInfo → Prop :=
| bounded_file n path info :
    Gen.IsDir info = false → bounded fs (S n) path info
| bounded_unlisted n path info err :
    Gen.IsDir info = true → Gen.ReadDir fs path = Err err → bounded fs (S n) path info
| bounded_dir n path info fis :
    Gen.IsDir info = true → Gen.ReadDir fs path = Ok fis →
    (∀ fi fileInfo,
       fi ∈ fis → Gen.Stat fs (Join path (Gen.Name fi)) = Ok fileInfo →
       bounded fs n (Join path (Gen.Name fi)) fileInfo) →
    bounded fs (S n) path info.

(** Every entry but the root is listed by a directory that stands before
    it in the table of contents. *)
Definition parent_first (toc : list Gen.pathAsset) : Prop :=
  ∀ i pa, toc !! i = Some pa →
    Gen.path pa = "/"
    ∨ ∃ j pd d, (j < i)%nat ∧ toc !! j = Some pd
                ∧ Gen.asset_of pd = Gen.Dir d ∧ Gen.path pa ∈ Gen.entries d.



(** ** More on the text *)

(** What Translate writes before the text of writeAssets. *)
Definition preamble (c : Gen.Config) : string :=
  ("// generated via `go generate`; do not edit" +:+ nl +:+ nl)
  +:+ (if decide (Gen.Tags c ≠ EmptyString)
       then "// +build " +:+ Gen.Tags c +:+ nl +:+ nl
       else EmptyString)
  +:+ ("package " +:+ Gen.Package c +:+ nl +:+ nl).


(** The walker returns for the path, in every state. *)
Definition returns (w : walker) (p : string) (fi : Gen.FileInfo) : Prop :=
  ∀ st, ∃ r st', w p fi st = Returns (r, st').

(** The path is the root or is listed by a directory of the table. *)
Definition linked (p : string) (toc : list Gen.pathAsset) : Prop :=
  p = "/"
  ∨ ∃ j pd d, toc !! j = Some pd ∧ Gen.asset_of pd = Gen.Dir d ∧ p ∈ Gen.entries d.

(** The state [st'] continues [st]: what was in the table of contents and
    in the log is still there, in front. *)
Definition continues (st st' : Gen.walkState) : Prop :=
  Gen.toc st `prefix_of` Gen.toc st' ∧ Gen.logged st `prefix_of` Gen.logged st'.

(** The modification time of an entry. *)
Definition modTime_of (pa : Gen.pathAsset) : Time :=
  match Gen.asset_of pa with
  | Gen.Dir d => Gen.d_modTime d
  | Gen.File f => Gen.f_modTime f
  end.


(** The walker keeps parents before children. *)
Definition keeps_order (w : walker) : Prop :=
  ∀ p fi st r st',
    parent_first (Gen.toc st) → linked p (Gen.toc st) →
    w p fi st = Returns (r, st') → parent_first (Gen.toc st') ∧ continues st st'.


(** ** More on the generated map *)




End MoreNotions.

(** * A small instance

    A library instance and a source tree on which the definitions above
    run: times are their own text, %q puts quotes around a name that
    needs no escaping, the codec puts the two magic bytes of gzip before
    the bytes unchanged, and every byte is escaped as a backslash, an x
    and two hexadecimal digits. *)

Module Demo.

Definition hex_digit (n : N) : ascii :=
  match n with
  | 0 => "0" | 1 => "1" | 2 => "2" | 3 => "3" | 4 => "4" | 5 => "5" | 6 => "6" | 7 => "7"
  | 8 => "8" | 9 => "9" | 10 => "a" | 11 => "b" | 12 => "c" | 13 => "d" | 14 => "e"
  | _ => "f"
  end%N%char.

Definition hex_value (c : ascii) : option N :=
  (if decide (c = "0") then Some 0 else if decide (c = "1") then Some 1
   else if decide (c = "2") then Some 2 else if decide (c = "3") then Some 3
   else if decide (c = "4") then Some 4 else if decide (c = "5") then Some 5
   else if decide (c = "6") then Some 6 else if decide (c = "7") then Some 7
   else if decide (c = "8") then Some 8 else if decide (c = "9") then Some 9
   else if decide (c = "a") then Some 10 else if decide (c = "b") then Some 11
   else if decide (c = "c") then Some 12 else if decide (c = "d") then Some 13
   else if decide (c = "e") then Some 14 else if decide (c = "f") then Some 15
   else None)%N%char.

Definition escape_byte (b : byte) (rest : string) : string :=
  let n := Byte.to_N b in
  String "\" (String "x" (String (hex_digit (n / 16)) (String (hex_digit (n mod 16)) rest))).

Fixpoint escape (bs : list byte) : string :=
  match bs with
  | [] => EmptyString
  | b :: bs' => escape_byte b (escape bs')
  end.

Definition byte_of_hex (h l : ascii) : option byte :=
  match hex_value h, hex_value l with
  | Some x, Some y => Byte.of_N (16 * x + y)
  | _, _ => None
  end.

(** The bytes of an interpreted string literal, for the escapes that
    [escape] writes; any other character stands for itself. *)
Fixpoint unescape (s : string) : list byte :=
  match s with
  | EmptyString => []
  | String c s1 =>
      match s1 with
      | String x (String h (String l s') as s3) =>
          if decide (c = "\"%char ∧ x = "x"%char) then
            match byte_of_hex h l with
            | Some b => b :: unescape s'
            | None => byte_of_ascii c :: unescape s1
            end
          else byte_of_ascii c :: unescape s1
      | _ => byte_of_ascii c :: unescape s1
      end
  end.

Definition gzip_magic : list byte := [Byte.x1f; Byte.x8b].

Definition store (bs : list byte) : list byte := gzip_magic ++ bs.

Definition unstore (bs : list byte) : result (list byte * error) :=
  match bs with
  | Byte.x1f :: Byte.x8b :: bs' => Ok (bs', EOF)
  | _ => Err (errorString "gzip: invalid header")
  end.

Definition join (dirname name : string) : string :=
  if decide (dirname = "/") then dirname +:+ name else dirname +:+ "/" +:+ name.

(** The part of a path after its last slash. *)
Fixpoint base_from (acc : string) (s : string) : string :=
  match s with
  | EmptyString => acc
  | String c s' =>
      if decide (c = "/"%char) then base_from EmptyString s'
      else base_from (acc +:+ String c EmptyString) s'
  end.

Definition base (p : string) : string :=
  if decide (p = "/") then "/" else base_from EmptyString p.

#[export] Instance lib : GoLib := {|
  Time := string;
  MarshalText := λ t, Ok t;
  UnmarshalText := λ s, Ok s;
  Quote := λ s, dq +:+ s +:+ dq;
  Join := join;
  Base := base;
  gzip_Write := store;
  gzip_NewReader := unstore;
  StringWriter_Write := escape;
  literal_bytes := unescape;
|}.

Definition t0 : string := "2015-01-01T00:00:00Z".

Definition file_info (name : string) (size : Z) : Gen.FileInfo :=
  {| Gen.Name := name; Gen.Size := size; Gen.ModTime := t0; Gen.IsDir := false |}.

Definition dir_info (name : string) : Gen.FileInfo :=
  {| Gen.Name := name; Gen.Size := 4096; Gen.ModTime := t0; Gen.IsDir := true |}.

Definition hello : list byte := [Byte.x68; Byte.x65; Byte.x6c; Byte.x6c; Byte.x6f].
Definition world : list byte := [Byte.x77; Byte.x6f; Byte.x72; Byte.x6c; Byte.x64].

Definition no_such_file : error := errorString "no such file or directory".
Definition permission_denied : error := errorString "permission denied".

(** The tree of the scenario: /a.txt holds hello and /sub/b.txt holds
    world.  The root lists sub before a.txt. *)
Definition tree : Gen.FileSystem := {|
  Gen.Stat := λ p,
    if decide (p = "/") then Ok (dir_info "/")
    else if decide (p = "/a.txt") then Ok (file_info "a.txt" 5)
    else if decide (p = "/sub") then Ok (dir_info "sub")
    else if decide (p = "/sub/b.txt") then Ok (file_info "b.txt" 5)
    else Err no_such_file;
  Gen.ReadDir := λ p,
    if decide (p = "/") then Ok [dir_info "sub"; file_info "a.txt" 5]
    else if decide (p = "/sub") then Ok [file_info "b.txt" 5]
    else Err no_such_file;
  Gen.Open := λ p,
    if decide (p = "/a.txt") then Ok hello
    else if decide (p = "/sub/b.txt") then Ok world
    else Err no_such_file;
|}.

(** The same tree with the root listed in the other order. *)
Definition tree' : Gen.FileSystem := {|
  Gen.Stat := Gen.Stat tree;
  Gen.ReadDir := λ p,
    if decide (p = "/") then Ok [file_info "a.txt" 5; dir_info "sub"]
    else Gen.ReadDir tree p;
  Gen.Open := Gen.Open tree;
|}.

(** The tree with /a.txt listed and described but not readable. *)
Definition unreadable : Gen.FileSystem := {|
  Gen.Stat := Gen.Stat tree;
  Gen.ReadDir := Gen.ReadDir tree;
  Gen.Open := λ p, if decide (p = "/a.txt") then Err permission_denied else Gen.Open tree p;
|}.


Definition config (fs : Gen.FileSystem) : Gen.Config :=
  {| Gen.Input := fs; Gen.Output := "assets_vfsdata.go"; Gen.Package := "main";
     Gen.Tags := EmptyString |}.

Definition env : Gen.Env := {|
  Gen.validate := λ c, if decide (Gen.Package c = EmptyString)
                       then Some (errorString "missing package name") else None;
  Gen.os_Create := λ _, Ok {| Gen.out := EmptyString; Gen.failed := None |};
|}.

Definition start : Gen.walkState := {| Gen.toc := []; Gen.logged := [] |}.

(** A directory record and an open file of the generated file system. *)
Definition sub_dir : Rt.dir :=
  {| Rt.d_name := "sub"; Rt.entries := ["/sub/b.txt"]; Rt.d_modTime := t0 |}.

Definition a_txt : Rt.compressedFile :=
  {| Rt.f_name := "a.txt"; Rt.compressedContent := store hello;
     Rt.uncompressedSize := 5; Rt.f_modTime := t0 |}.

Definition a_txt_open : Rt.compressedFileInstance :=
  {| Rt.cf := a_txt; Rt.gr := {| Rt.pending := hello; Rt.final := EOF |} |}.

(** A file system in which nothing can be described. *)
Definition nothing : Gen.FileSystem := {|
  Gen.Stat := λ _, Err no_such_file;
  Gen.ReadDir := λ _, Err no_such_file;
  Gen.Open := λ _, Err no_such_file;
|}.

(** The walk of [tree], the initializer emitted for it, and the map that
    the initializer builds. *)
Definition walked : Gen.walkState :=
  Eval vm_compute in
    match Gen.findFiles 5 tree start with
    | Returns (_, st) => st
    | _ => start
    end.

Definition init : Rt.initializer :=
  Eval vm_compute in
    match Gen.emitted (config tree) (Gen.toc walked) with
    | Some i => i
    | None => {| Rt.elements := []; Rt.assignments := [] |}
    end.

Definition assets : gmap string Rt.asset :=
  match Rt.AssetsFS init with
  | Returns m => m
  | _ => ∅
  end.

(** The entry of /a.txt in the table of contents. *)
Definition a_txt_asset : Gen.compressedFile :=
  {| Gen.f_name := "a.txt"; Gen.uncompressedSize := 5; Gen.f_modTime := t0 |}.

Definition a_txt_entry : Gen.pathAsset :=
  {| Gen.path := "/a.txt"; Gen.asset_of := Gen.File a_txt_asset |}.

(** The record of the root in [assets]. *)
Definition root_dir : Rt.dir :=
  {| Rt.d_name := "/"; Rt.entries := ["/a.txt"; "/sub"]; Rt.d_modTime := t0 |}.


(** The entry of the root in the table of contents of [tree]. *)
Definition root_asset : Gen.dir :=
  {| Gen.d_name := "/"; Gen.entries := ["/a.txt"; "/sub"]; Gen.d_modTime := t0 |}.

Definition root_entry : Gen.pathAsset :=
  {| Gen.path := "/"; Gen.asset_of := Gen.Dir root_asset |}.






(** A state that holds an entry and a line before the walk starts, and
    the state in which the walk of [tree] leaves it. *)
Definition seeded : Gen.walkState :=
  {| Gen.toc := [a_txt_entry]; Gen.logged := ["earlier"] |}.

Definition seeded_walked : Gen.walkState :=
  Eval vm_compute in
    match Gen.findFiles 5 tree seeded with
    | Returns (_, st) => st
    | _ => seeded
    end.

(** A writer that takes what is written, and one that has failed. *)
Definition fresh : Gen.writer := {| Gen.out := EmptyString; Gen.failed := None |}.



End Demo.
(** * The order of strings and sort.Strings *)

Lemma string_app_assoc (a b c : string) : (a +:+ b) +:+ c = a +:+ (b +:+ c).
Proof.
  induction a as [|x a IH]; [done|].
  change (String x ((a +:+ b) +:+ c) = String x (a +:+ (b +:+ c))). by f_equal.
Qed.

Lemma ascii_compare_refl (c : ascii) : Ascii.compare c c = Eq.
Proof. unfold Ascii.compare. apply N.compare_refl. Qed.

Lemma string_leb_prefix (p a b : string) :
  String.leb (p +:+ a) (p +:+ b) = String.leb a b.
Proof.
  unfold String.leb. induction p as [|c p IH]; [done|].
  change (String.compare (String c p +:+ a) (String c p +:+ b))
    with (match Ascii.compare c c with
          | Eq => String.compare (p +:+ a) (p +:+ b)
          | Lt => Lt
          | Gt => Gt
          end).
  by rewrite ascii_compare_refl.
Qed.

Lemma sort_Strings_sorted (l : list string) : Sorted String.le (sort_Strings l).
Proof. apply Sorted_merge_sort, _. Qed.

Lemma sort_Strings_perm (l : list string) : sort_Strings l ≡ₚ l.
Proof. apply merge_sort_Permutation. Qed.

Lemma sort_Strings_unique (l1 l2 : list string) :
  l1 ≡ₚ l2 → sort_Strings l1 = sort_Strings l2.
Proof.
  intros Hp. apply (Sorted_unique String.le); try apply sort_Strings_sorted.
  by rewrite !sort_Strings_perm.
Qed.

Lemma sorted_add_prefix (p : string) (l : list string) :
  Sorted String.le l → Sorted String.le ((λ s, p +:+ s) <$> l).
Proof.
  induction 1 as [|a l Hs IH Hhd]; simpl; constructor; [done|].
  destruct Hhd as [|b l Hab]; simpl; constructor.
  unfold String.le in *. by rewrite string_leb_prefix.
Qed.

Lemma sort_Strings_prefix (p : string) (l : list string) :
  sort_Strings ((λ s, p +:+ s) <$> l) = (λ s, p +:+ s) <$> sort_Strings l.
Proof.
  apply (Sorted_unique String.le).
  - apply sort_Strings_sorted.
  - apply sorted_add_prefix, sort_Strings_sorted.
  - by rewrite !sort_Strings_perm.
Qed.

(** * The walk *)

Section Walk.
Context {G : GoLib}.
Variable fs : Gen.FileSystem.

Local Arguments Gen.walkFn : simpl never.

Lemma walkFn_error path fi err st :
  Gen.walkFn fs path fi (Some err) st = Returns (None, Gen.log_Printf (cant_stat path err) st).
Proof. reflexivity. Qed.

(** ** Every entry of the table of contents describes its path *)

Lemma walkFn_described path info st r st' :
  Gen.Stat fs path = Ok info → toc_described fs st →
  Gen.walkFn fs path (Some info) None st = Returns (r, st') →
  toc_described fs st'.
Proof.
  intros Hstat Hinv. unfold Gen.walkFn.
  destruct (Gen.IsDir info) eqn:Hd.
  - destruct (Gen.readDirPaths fs path) as [es|e] eqn:Hrd; intros [= <- <-]; [|done].
    intros pa [Hpa| ->%list_elem_of_singleton]%elem_of_app; [by apply Hinv|].
    unfold entry_at. simpl. by rewrite Hstat, Hd, Hrd.
  - intros [= <- <-].
    intros pa [Hpa| ->%list_elem_of_singleton]%elem_of_app; [by apply Hinv|].
    unfold entry_at. simpl. by rewrite Hstat, Hd.
Qed.

Lemma log_Printf_described line st :
  toc_described fs st → toc_described fs (Gen.log_Printf line st).
Proof. done. Qed.

Lemma walkNames_described (w : walker) path names :
  preserves fs w → ∀ st r st',
  toc_described fs st →
  Gen.walkNames w fs path names st = Returns (r, st') → toc_described fs st'.
Proof.
  intros Hw. induction names as [|name names IH]; intros st r st' Hinv; simpl.
  - by intros [= <- <-].
  - destruct (Gen.Stat fs (Join path name)) as [fi|e] eqn:Hstat.
    + destruct (w (Join path name) fi st) as [[[e'|] st1]|v|] eqn:Hw1; try done.
      * destruct (negb (Gen.IsDir fi) || bool_decide (e' ≠ SkipDir)); simpl.
        -- intros [= <- <-]. eauto.
        -- apply IH. eauto.
      * apply IH. eauto.
    + apply IH. by apply log_Printf_described.
Qed.

Lemma walk_described fuel : preserves fs (Gen.walk fuel fs).
Proof.
  induction fuel as [|fuel IH]; intros path info st r st' Hstat Hinv; simpl; [done|].
  destruct (Gen.walkFn fs path (Some info) None st) as [[[e|] st1]|v|] eqn:Hfn; try done.
  - pose proof (walkFn_described _ _ _ _ _ Hstat Hinv Hfn).
    destruct (Gen.IsDir info && bool_decide (e = SkipDir)); simpl; by intros [= <- <-].
  - pose proof (walkFn_described _ _ _ _ _ Hstat Hinv Hfn) as Hinv1.
    destruct (negb (Gen.IsDir info)); simpl; [by intros [= <- <-]|].
    destruct (Gen.readDirNames fs path) as [names|e].
    + by apply walkNames_described.
    + rewrite walkFn_error. intros [= <- <-]. by apply log_Printf_described.
Qed.

Lemma findFiles_described fuel r st :
  Gen.findFiles fuel fs {| Gen.toc := []; Gen.logged := [] |} = Returns (r, st) →
  toc_described fs st.
Proof.
  unfold Gen.findFiles, Gen.Walk.
  assert (toc_described fs {| Gen.toc := []; Gen.logged := [] |}) as H0.
  { intros pa Hpa. simpl in Hpa. by apply elem_of_nil in Hpa. }
  destruct (Gen.Stat fs "/") as [info|e] eqn:Hstat.
  - destruct (Gen.walk fuel fs "/" info _) as [[[e|] st1]|v|] eqn:Hw; try done;
      intros [= <- <-]; eapply walk_described; eauto.
  - rewrite walkFn_error. by intros [= <- <-].
Qed.

Lemma described_unique st pa pa' :
  toc_described fs st → pa ∈ Gen.toc st → pa' ∈ Gen.toc st →
  Gen.path pa = Gen.path pa' → pa = pa'.
Proof.
  intros Hd Hin Hin' Hp. apply Hd in Hin, Hin'. rewrite Hp in Hin. congruence.
Qed.

(** ** More fuel changes no result *)




(** ** The failure policy *)




(** The one error that does not stop the walk is the walker's own
    SkipDir: a directory whose listing fails with it is left out. *)
Remark walk_listing_SkipDir fuel path info st :
  Gen.IsDir info = true → Gen.ReadDir fs path = Err SkipDir →
  Gen.walk (S fuel) fs path info st = Returns (None, st).
Proof.
  intros Hd Hrd. simpl. unfold Gen.walkFn, Gen.readDirPaths. by rewrite Hd, Hrd.
Qed.



End Walk.

(** * Determinism *)

Section SameTree.
Context {G : GoLib}.
Variables fs1 fs2 : Gen.FileSystem.
Hypothesis Hsame : same_tree fs1 fs2.

Local Arguments Gen.walkFn : simpl never.

Lemma readDirPaths_same p : Gen.readDirPaths fs1 p = Gen.readDirPaths fs2 p.
Proof.
  unfold Gen.readDirPaths. pose proof (same_ReadDir _ _ Hsame p) as H.
  destruct (Gen.ReadDir fs1 p) as [l1|e1], (Gen.ReadDir fs2 p) as [l2|e2];
    simpl in H; try done; [|by subst].
  f_equal. apply sort_Strings_unique. by apply fmap_Permutation.
Qed.

Lemma readDirNames_same p : Gen.readDirNames fs1 p = Gen.readDirNames fs2 p.
Proof.
  unfold Gen.readDirNames. pose proof (same_ReadDir _ _ Hsame p) as H.
  destruct (Gen.ReadDir fs1 p) as [l1|e1], (Gen.ReadDir fs2 p) as [l2|e2];
    simpl in H; try done; [|by subst].
  f_equal. apply sort_Strings_unique. by apply fmap_Permutation.
Qed.

Lemma walkFn_same p fi err st : Gen.walkFn fs1 p fi err st = Gen.walkFn fs2 p fi err st.
Proof. unfold Gen.walkFn. by rewrite readDirPaths_same. Qed.

Lemma walkNames_same (w1 w2 : walker) path names :
  (∀ p fi st, w1 p fi st = w2 p fi st) → ∀ st,
  Gen.walkNames w1 fs1 path names st = Gen.walkNames w2 fs2 path names st.
Proof.
  intros Hw. induction names as [|name names IH]; intros st; [done|].
  cbn [Gen.walkNames]. rewrite (same_Stat _ _ Hsame).
  destruct (Gen.Stat fs2 (Join path name)) as [fi|e].
  - rewrite Hw. destruct (w2 (Join path name) fi st) as [[[e'|] st1]|v|]; try done.
    by rewrite IH.
  - rewrite walkFn_same.
    destruct (Gen.walkFn fs2 (Join path name) None (Some e) st) as [[[e'|] st1]|v|]; try done.
    by rewrite IH.
Qed.

Lemma walk_same fuel : ∀ p fi st, Gen.walk fuel fs1 p fi st = Gen.walk fuel fs2 p fi st.
Proof.
  induction fuel as [|fuel IH]; intros p fi st; [done|].
  cbn [Gen.walk]. rewrite walkFn_same.
  destruct (Gen.walkFn fs2 p (Some fi) None st) as [[[e|] st1]|v|]; try done.
  destruct (negb (Gen.IsDir fi)); [done|]. rewrite readDirNames_same.
  destruct (Gen.readDirNames fs2 p) as [names|e]; [|apply walkFn_same].
  by apply walkNames_same.
Qed.

Lemma findFiles_same fuel st : Gen.findFiles fuel fs1 st = Gen.findFiles fuel fs2 st.
Proof.
  unfold Gen.findFiles, Gen.Walk. rewrite (same_Stat _ _ Hsame).
  destruct (Gen.Stat fs2 "/"); [by rewrite walk_same|by rewrite walkFn_same].
Qed.

End SameTree.

Section SameOutput.
Context {G : GoLib}.
Variables c1 c2 : Gen.Config.
Hypothesis Hsame : same_tree (Gen.Input c1) (Gen.Input c2).

Lemma writeElement_same pa : Gen.writeElement c1 pa = Gen.writeElement c2 pa.
Proof. unfold Gen.writeElement. by rewrite (same_Open _ _ Hsame). Qed.

Lemma writeElements_same toc w : Gen.writeElements c1 toc w = Gen.writeElements c2 toc w.
Proof.
  revert w. induction toc as [|pa toc IH]; intros w; [done|].
  cbn [Gen.writeElements]. unfold Gen.bind. rewrite writeElement_same.
  destruct (Gen.writeElement c2 pa w) as [[[e|]|v|] w1]; try done.
Qed.

Lemma writeAssets_same toc w : Gen.writeAssets c1 toc w = Gen.writeAssets c2 toc w.
Proof.
  unfold Gen.writeAssets, Gen.checked, Gen.bind.
  destruct (Gen.Fprintf imports_text w) as [[[e|]|v|] w1]; try done.
  destruct (Gen.Fprintf map_head_text w1) as [[[e|]|v|] w2]; try done.
  by rewrite writeElements_same.
Qed.

End SameOutput.

Section Determinism.
Context {G : GoLib}.

(** C9: two runs of Translate on file systems that hold the same tree,
    with the same output name, package and tags, leave the same result,
    the same log and the same bytes in the output file, in whatever
    order the directories are listed to them. *)
Theorem Translate_deterministic (fuel : nat) (env : Gen.Env) (c1 c2 : Gen.Config) :
  same_tree (Gen.Input c1) (Gen.Input c2) →
  Gen.Output c1 = Gen.Output c2 → Gen.Package c1 = Gen.Package c2 →
  Gen.Tags c1 = Gen.Tags c2 →
  Gen.validate env c1 = Gen.validate env c2 →
  Gen.Translate fuel env c1 = Gen.Translate fuel env c2.
Proof.
  intros Hsame Hout Hpkg Htags Hval. unfold Gen.Translate.
  rewrite Hval, (findFiles_same _ _ Hsame), Hout.
  destruct (Gen.validate env c2); [done|].
  destruct (Gen.findFiles fuel (Gen.Input c2) _) as [[[e|] st]|v|]; try done.
  destruct (Gen.os_Create env (Gen.Output c2)) as [f|e]; [|done].
  assert (Gen.writeAll c1 (Gen.toc st) f = Gen.writeAll c2 (Gen.toc st) f) as ->; [|done].
  unfold Gen.writeAll, Gen.checked, Gen.bind. rewrite Htags, Hpkg.
  destruct (Gen.Fprintf _ f) as [[[e|]|v|] w1]; try done.
  destruct (decide (Gen.Tags c2 ≠ EmptyString)).
  - destruct (Gen.Fprintf _ w1) as [[[e|]|v|] w2]; try done.
    destruct (Gen.Fprintf _ w2) as [[[e|]|v|] w3]; try done.
    by rewrite (writeAssets_same _ _ Hsame).
  - unfold Gen.ret.
    destruct (Gen.Fprintf _ w1) as [[[e|]|v|] w3]; try done.
    by rewrite (writeAssets_same _ _ Hsame).
Qed.

End Determinism.

(** * The generated map *)

Section Store.
Context {G : GoLib}.

Lemma defined_elem_of els k l : defined els k = Some l → (k, l) ∈ els.
Proof.
  induction els as [|[key l'] els IH]; simpl; [done|].
  destruct (defined els k) as [l''|].
  - intros [= ->]. right. by apply IH.
  - case_decide; [|done]. intros [= ->]. subst. left.
Qed.

Lemma elem_of_defined els k l : (k, l) ∈ els → is_Some (defined els k).
Proof.
  induction els as [|[key l'] els IH]; simpl; [by intros ?%elem_of_nil|].
  intros [[= <- <-]|Hin]%elem_of_cons.
  - destruct (defined els k); [done|]. by rewrite decide_True.
  - destruct (IH Hin) as [l'' ->]. done.
Qed.

Lemma assigned_elem_of asg k es : assigned asg k = Some es → (k, es) ∈ asg.
Proof.
  induction asg as [|[p es'] asg IH]; simpl; [done|].
  destruct (assigned asg k) as [es''|].
  - intros [= ->]. right. by apply IH.
  - case_decide; [|done]. intros [= ->]. subst. left.
Qed.

Lemma elem_of_assigned asg k es : (k, es) ∈ asg → is_Some (assigned asg k).
Proof.
  induction asg as [|[p es'] asg IH]; simpl; [by intros ?%elem_of_nil|].
  intros [[= <- <-]|Hin]%elem_of_cons.
  - destruct (assigned asg k); [done|]. by rewrite decide_True.
  - destruct (IH Hin) as [l'' ->]. done.
Qed.

Lemma eval_elements_lookup els : ∀ m m',
  Rt.eval_elements els m = Returns m' → ∀ k,
  match defined els k with
  | Some l => ∃ a, Rt.eval_literal l = Returns a ∧ m' !! k = Some a
  | None => m' !! k = m !! k
  end.
Proof.
  induction els as [|[key l] els IH]; intros m m'; simpl.
  - by intros [= ->] k.
  - destruct (Rt.eval_literal l) as [a|v|] eqn:Hl; try done.
    intros Hev k. specialize (IH _ _ Hev k).
    destruct (defined els k) as [l'|]; [done|].
    case_decide as Hk.
    + subst. exists a. by rewrite IH, lookup_insert_eq.
    + by rewrite IH, lookup_insert_ne.
Qed.

Lemma eval_entries_spec m es refs :
  Rt.eval_entries m es = Returns refs → refs = es ∧ Forall (λ e, is_Some (m !! e)) es.
Proof.
  revert refs. induction es as [|e es IH]; intros refs; simpl.
  - by intros [= <-].
  - destruct (m !! e) as [a|] eqn:He; [|done].
    destruct (Rt.eval_entries m es) as [refs'|v|]; try done.
    intros [= <-]. destruct (IH _ eq_refl) as [-> Hall]. split; [done|].
    constructor; [by rewrite He|done].
Qed.

Lemma eval_assignment_spec m p es m' :
  Rt.eval_assignment m p es = Returns m' →
  ∃ d, m !! p = Some (Rt.Dir d)
       ∧ m' = <[p := with_entries (Some es) (Rt.Dir d)]> m
       ∧ Forall (λ e, is_Some (m !! e)) es.
Proof.
  unfold Rt.eval_assignment.
  destruct (m !! p) as [[f|d]|]; try done.
  destruct (Rt.eval_entries m es) as [refs|v|] eqn:Hes; try done.
  intros [= <-]. apply eval_entries_spec in Hes as [-> Hall]. by exists d.
Qed.

Lemma with_entries_twice es es' a :
  with_entries es' (with_entries (Some es) a) = with_entries (Some (default es es')) a.
Proof. by destruct a, es'. Qed.

Lemma eval_assignments_lookup asg : ∀ m m',
  Rt.eval_assignments asg m = Returns m' → ∀ k,
  m' !! k = with_entries (assigned asg k) <$> m !! k.
Proof.
  induction asg as [|[p es] asg IH]; intros m m'; simpl.
  - intros [= <-] k. by destruct (m !! k) as [[]|].
  - destruct (Rt.eval_assignment m p es) as [m1|v|] eqn:H1; try done.
    apply eval_assignment_spec in H1 as (d & Hp & -> & _).
    intros Hev k. rewrite (IH _ _ Hev k).
    destruct (decide (p = k)) as [->|Hne].
    + rewrite lookup_insert_eq, Hp. simpl.
      by destruct (assigned asg k).
    + rewrite lookup_insert_ne by done.
      destruct (assigned asg k); [done|]. by destruct (m !! k) as [[]|].
Qed.

Lemma eval_assignments_resolved asg : ∀ m m',
  Rt.eval_assignments asg m = Returns m' → ∀ k es e,
  (k, es) ∈ asg → e ∈ es → is_Some (m' !! e).
Proof.
  induction asg as [|[p es0] asg IH]; intros m m'; simpl.
  - intros _ k es e ?%elem_of_nil. done.
  - destruct (Rt.eval_assignment m p es0) as [m1|v|] eqn:H1; try done.
    intros Hev k es e [[= -> ->]|Hin]%elem_of_cons He; [|by eapply IH].
    apply eval_assignment_spec in H1 as (d & Hp & -> & Hall).
    rewrite (eval_assignments_lookup _ _ _ Hev e).
    rewrite Forall_forall in Hall. specialize (Hall e He).
    apply fmap_is_Some.
    destruct (decide (p = e)) as [->|Hne];
      [by rewrite lookup_insert_eq | by rewrite lookup_insert_ne].
Qed.

End Store.

Section Generated.
Context {G : GoLib} {L : GoLaws G}.
Variable c : Gen.Config.

Lemma element_key pa k l : Gen.element c pa = Some (k, l) → k = Gen.path pa.
Proof.
  unfold Gen.element. destruct (Gen.asset_of pa) as [d|f].
  - destruct (MarshalText _); [by intros [= <- _]|done].
  - destruct (Gen.Open _ _); [|done]. destruct (MarshalText _); [by intros [= <- _]|done].
Qed.

Lemma elements_elem_of toc : ∀ els,
  Gen.elements c toc = Some els → ∀ el,
  el ∈ els ↔ ∃ pa, pa ∈ toc ∧ Gen.element c pa = Some el.
Proof.
  induction toc as [|pa toc IH]; intros els; simpl.
  - intros [= <-] el. split; [by intros ?%elem_of_nil|]. by intros (? & ?%elem_of_nil & _).
  - destruct (Gen.element c pa) as [el0|] eqn:Hel; [|done].
    destruct (Gen.elements c toc) as [els0|]; [|done].
    intros [= <-] el. rewrite elem_of_cons, (IH _ eq_refl). split.
    + intros [->|(pa' & Hin & Hpa')]; [exists pa|exists pa']; split; try done; by constructor.
    + intros (pa' & [->|Hin]%elem_of_cons & Hpa'); [left; congruence|right; eauto].
Qed.

Lemma assignments_elem_of toc k es :
  (k, es) ∈ Gen.assignments toc
  ↔ ∃ pa d, pa ∈ toc ∧ Gen.asset_of pa = Gen.Dir d ∧ Gen.path pa = k ∧ Gen.entries d = es.
Proof.
  induction toc as [|pa toc IH]; simpl.
  - split; [by intros ?%elem_of_nil|]. by intros (? & ? & ?%elem_of_nil & _).
  - destruct (Gen.asset_of pa) as [d|f] eqn:Hpa.
    + rewrite elem_of_cons, IH. split.
      * intros [[= -> ->]|(pa' & d' & Hin & H)]; [exists pa, d|exists pa', d'];
          repeat split; try tauto; try by constructor.
      * intros (pa' & d' & [->|Hin]%elem_of_cons & Hd & <- & <-).
        -- left. congruence.
        -- right. eauto 10.
    + rewrite IH. split.
      * intros (pa' & d' & Hin & H). exists pa', d'. split; [by constructor|done].
      * intros (pa' & d' & [->|Hin]%elem_of_cons & Hd & H); [congruence|eauto 10].
Qed.

Lemma generated_lookup toc init fs :
  Gen.emitted c toc = Some init → Rt.AssetsFS init = Returns fs → ∀ k,
  match fs !! k with
  | Some a => ∃ pa, pa ∈ toc ∧ Gen.path pa = k ∧ record_of c toc pa a
  | None => k ∉ Gen.path <$> toc
  end.
Proof.
  unfold Gen.emitted, Rt.AssetsFS.
  destruct (Gen.elements c toc) as [els|] eqn:Hels; [|done]. intros [= <-]. simpl.
  destruct (Rt.eval_elements els ∅) as [m1|v|] eqn:H1; try done.
  intros H2 k. rewrite (eval_assignments_lookup _ _ _ H2 k).
  pose proof (eval_elements_lookup _ _ _ H1 k) as Hk.
  destruct (defined els k) as [l|] eqn:Hdef.
  - destruct Hk as (a & Hl & ->). simpl.
    apply defined_elem_of, (elements_elem_of _ _ Hels) in Hdef as (pa & Hin & Hpa).
    pose proof (element_key _ _ _ Hpa) as ->.
    exists pa. split; [done|]. split; [done|].
    unfold record_of. unfold Gen.element in Hpa.
    destruct (Gen.asset_of pa) as [d|f] eqn:Hasset.
    + destruct (MarshalText (Gen.d_modTime d)) as [s|] eqn:Hs; [|done].
      injection Hpa as <-. simpl in Hl. unfold Rt.mustUnmarshalTextTime in Hl.
      rewrite (time_roundtrip _ _ Hs) in Hl. injection Hl as <-.
      assert (is_Some (assigned (Gen.assignments toc) (Gen.path pa))) as [es Hes].
      { apply (elem_of_assigned _ _ (Gen.entries d)), assignments_elem_of. eauto 10. }
      rewrite Hes. exists es. split; [by apply assigned_elem_of|done].
    + destruct (Gen.Open (Gen.Input c) (Gen.path pa)) as [bytes|] eqn:Hopen; [|done].
      destruct (MarshalText (Gen.f_modTime f)) as [s|] eqn:Hs; [|done].
      injection Hpa as <-. simpl in Hl. unfold Rt.mustUnmarshalTextTime in Hl.
      rewrite (time_roundtrip _ _ Hs), escape_roundtrip in Hl. injection Hl as <-.
      exists bytes. split; [done|]. by destruct (assigned _ _).
  - rewrite Hk, lookup_empty. simpl.
    intros (pa & -> & Hin)%list_elem_of_fmap.
    assert (∃ el, Gen.element c pa = Some el ∧ el ∈ els) as ([k l] & Hel & Hinel).
    { clear -Hels Hin. revert els Hels. induction toc as [|pa' toc IH]; intros els Hels;
        [by apply elem_of_nil in Hin|].
      simpl in Hels. destruct (Gen.element c pa') as [el0|] eqn:Hel; [|done].
      destruct (Gen.elements c toc) as [els0|]; [|done]. injection Hels as <-.
      apply elem_of_cons in Hin as [->|Hin].
      - exists el0. split; [done|by constructor].
      - destruct (IH Hin _ eq_refl) as (el & ? & ?). exists el. split; [done|by constructor]. }
    pose proof (element_key _ _ _ Hel) as ->.
    apply elem_of_defined in Hinel as [? ?]. congruence.
Qed.

End Generated.

Section ReadAll.
Context {G : GoLib}.


End ReadAll.

Section EndToEnd.
Context {G : GoLib} {L : GoLaws G}.

Lemma generated_resolved c toc init fs k es e :
  Gen.emitted c toc = Some init → Rt.AssetsFS init = Returns fs →
  (k, es) ∈ Gen.assignments toc → e ∈ es → is_Some (fs !! e).
Proof.
  unfold Gen.emitted, Rt.AssetsFS.
  destruct (Gen.elements c toc) as [els|] eqn:Hels; [|done]. intros [= <-]. simpl.
  destruct (Rt.eval_elements els ∅) as [m1|v|] eqn:H1; try done.
  intros H2. by eapply eval_assignments_resolved.
Qed.

(** C2: in the map that the emitted initializer builds, the keys are the
    paths of the table of contents; Open of a path that is not a key
    returns os.ErrNotExist, and Open of a key returns a handle; neither
    panics. *)
Theorem Open_generated (c : Gen.Config) (toc : list Gen.pathAsset)
    (init : Rt.initializer) (fs : gmap string Rt.asset) (path : string) :
  Gen.emitted c toc = Some init → Rt.AssetsFS init = Returns fs →
  (fs !! path = None ↔ path ∉ Gen.path <$> toc)
  ∧ (fs !! path = None → Rt.Open fs path = Returns (Err ErrNotExist))
  ∧ (is_Some (fs !! path) → ∃ h, Rt.Open fs path = Returns (Ok h)).
Proof.
  intros Hem Hfs. pose proof (generated_lookup c toc init fs Hem Hfs path) as Hk.
  unfold Rt.Open. destruct (fs !! path) as [a|] eqn:Ha.
  - destruct Hk as (pa & Hin & <- & Hrec). split; [|split]; try done.
    + split; [done|]. intros []. apply list_elem_of_fmap. eauto.
    + intros _. unfold record_of in Hrec. destruct (Gen.asset_of pa) as [d|f].
      * destruct Hrec as (es & _ & ->). eauto.
      * destruct Hrec as (bytes & _ & ->). simpl. rewrite gzip_roundtrip. eauto.
  - split; [done|]. split; [done|]. by intros [? ?].
Qed.


(** The record of a directory of the generated map lists, in sorted
    order, the joined paths of the entries that ReadDir gave for its path,
    and each of them is a key of the map whose record is named by the
    base of the path. *)
Lemma generated_dir (fuel : nat) (c : Gen.Config) (st : Gen.walkState)
    (init : Rt.initializer) (fs : gmap string Rt.asset) (p : string) (d : Rt.dir) :
  Gen.findFiles fuel (Gen.Input c) {| Gen.toc := []; Gen.logged := [] |} = Returns (None, st) →
  Gen.emitted c (Gen.toc st) = Some init →
  Rt.AssetsFS init = Returns fs →
  fs !! p = Some (Rt.Dir d) →
  ∃ fis,
    Gen.ReadDir (Gen.Input c) p = Ok fis
    ∧ Rt.entries d = sort_Strings ((λ fi, Join p (Gen.Name fi)) <$> fis)
    ∧ Forall (λ q, ∃ a, fs !! q = Some a ∧ Rt.Name a = Base q) (Rt.entries d).
Proof.
  intros Hwalk Hem Hfs Hp.
  pose proof (findFiles_described _ _ _ _ Hwalk) as Hd.
  pose proof (generated_lookup c _ init fs Hem Hfs p) as Hk. rewrite Hp in Hk.
  destruct Hk as (pa & Hin & <- & Hrec). unfold record_of in Hrec.
  destruct (Gen.asset_of pa) as [d0|f0] eqn:Hasset; [|by destruct Hrec as (? & _ & ?)].
  destruct Hrec as (es & Hes & [= ->]). simpl.
  apply assignments_elem_of in Hes as (pa' & d' & Hin' & Hasset' & Hp' & <-).
  assert (pa' = pa) as -> by (by eapply (described_unique (Gen.Input c))).
  rewrite Hasset in Hasset'. injection Hasset' as <-.
  pose proof Hasset as Hasset0.
  pose proof (Hd pa Hin) as Hentry. unfold entry_at, Gen.readDirPaths in Hentry.
  destruct (Gen.Stat (Gen.Input c) (Gen.path pa)) as [fi|] eqn:Hstat; [|done].
  destruct (Gen.IsDir fi);
    [|injection Hentry as Hentry; rewrite <- Hentry in Hasset; done].
  destruct (Gen.ReadDir (Gen.Input c) (Gen.path pa)) as [fis|]; [|done].
  injection Hentry as Hentry. rewrite <- Hentry in Hasset. simpl in Hasset.
  injection Hasset as <-. simpl.
  exists fis. split; [done|]. split; [done|].
  apply Forall_forall. intros q Hq.
  assert (is_Some (fs !! q)) as [a Ha].
  { eapply (generated_resolved c (Gen.toc st) init fs (Gen.path pa)); try done.
    apply assignments_elem_of. eexists pa, _. split; [done|]. split; [exact Hasset0|done]. }
  exists a. split; [done|].
  pose proof (generated_lookup c _ init fs Hem Hfs q) as Hk. rewrite Ha in Hk.
  destruct Hk as (paq & Hinq & <- & Hrec). unfold record_of in Hrec.
  pose proof (Hd paq Hinq) as Hq'. unfold entry_at in Hq'.
  destruct (Gen.Stat (Gen.Input c) (Gen.path paq)) as [fiq|]; [|done].
  destruct (Gen.IsDir fiq).
  - destruct (Gen.readDirPaths _ _); [|done]. injection Hq' as Hq'.
    rewrite <- Hq' in Hrec. simpl in Hrec. by destruct Hrec as (? & _ & ->).
  - injection Hq' as Hq'. rewrite <- Hq' in Hrec. simpl in Hrec.
    by destruct Hrec as (? & _ & ->).
Qed.

Lemma Forall2_names (fs : gmap string Rt.asset) (pre : string) (names : list string) :
  Forall (λ n, Base (pre +:+ n) = n) names →
  Forall (λ q, ∃ a, fs !! q = Some a ∧ Rt.Name a = Base q) ((λ s, pre +:+ s) <$> names) →
  Forall2 (λ q n, ∃ a, fs !! q = Some a ∧ Rt.Name a = n) ((λ s, pre +:+ s) <$> names) names.
Proof.
  induction names as [|n names IH]; simpl; [constructor|].
  intros [Hb Hbs]%Forall_cons [(a & Ha & Hn) Hqs]%Forall_cons.
  constructor; [|by apply IH]. exists a. split; [done|congruence].
Qed.

(** C3: Readdir of a directory handle with count 0 returns all the entries
    of the record and no error, also when there are none, and with any
    other count it panics.  For a directory of the generated map the
    entries are the sorted joined paths of all the entries that the source
    directory listed, each a key of the map; where Join puts a prefix
    before a name and Base takes it off, the names of the records listed
    are the sorted names of the source entries. *)
Theorem Readdir_lists :
  (∀ d : Rt.dir, Rt.Readdir (Rt.DirHandle d) 0 = Returns (Ok (Rt.entries d)))
  ∧ (∀ d : Rt.dir, Rt.entries d = [] → Rt.Readdir (Rt.DirHandle d) 0 = Returns (Ok []))
  ∧ (∀ (d : Rt.dir) (count : Z),
       count ≠ 0 →
       Rt.Readdir (Rt.DirHandle d) count
         = Panics ("httpDir.Readdir count unsupported value: " +:+ pretty count +:+ nl))
  ∧ (∀ fuel c st init (fs : gmap string Rt.asset) p d,
       Gen.findFiles fuel (Gen.Input c) {| Gen.toc := []; Gen.logged := [] |}
         = Returns (None, st) →
       Gen.emitted c (Gen.toc st) = Some init →
       Rt.AssetsFS init = Returns fs →
       fs !! p = Some (Rt.Dir d) →
       ∃ fis,
         Gen.ReadDir (Gen.Input c) p = Ok fis
         ∧ Rt.Readdir (Rt.DirHandle d) 0
             = Returns (Ok (sort_Strings ((λ fi, Join p (Gen.Name fi)) <$> fis)))
         ∧ Sorted String.le (Rt.entries d)
         ∧ Rt.entries d ≡ₚ (λ fi, Join p (Gen.Name fi)) <$> fis
         ∧ Forall (λ q, ∃ a, fs !! q = Some a ∧ Rt.Name a = Base q) (Rt.entries d)
         ∧ (fis = [] → Rt.Readdir (Rt.DirHandle d) 0 = Returns (Ok []))
         ∧ ∀ pre,
             Forall (λ fi, Join p (Gen.Name fi) = pre +:+ Gen.Name fi
                           ∧ Base (pre +:+ Gen.Name fi) = Gen.Name fi) fis →
             Forall2 (λ q n, ∃ a, fs !! q = Some a ∧ Rt.Name a = n)
               (Rt.entries d) (sort_Strings (Gen.Name <$> fis))
             ∧ Sorted String.le (sort_Strings (Gen.Name <$> fis))).
Proof.
  split; [done|]. split; [by intros d <-|]. split.
  { intros d count Hc. unfold Rt.Readdir, Rt.d_Readdir. by rewrite decide_True. }
  intros fuel c st init fs p d Hwalk Hem Hfs Hp.
  destruct (generated_dir fuel c st init fs p d Hwalk Hem Hfs Hp) as (fis & Hrd & Hes & Hall).
  exists fis. split; [done|]. split; [by rewrite <- Hes|].
  split; [rewrite Hes; apply sort_Strings_sorted|].
  split; [rewrite Hes; apply sort_Strings_perm|]. split; [done|].
  split.
  { intros ->. change (Returns (Ok (Rt.entries d)) = Returns (Ok [])). by rewrite Hes. }
  intros pre Hpre. split; [|apply sort_Strings_sorted].
  assert ((λ fi, Join p (Gen.Name fi)) <$> fis = (λ s, pre +:+ s) <$> (Gen.Name <$> fis)) as Hmap.
  { rewrite <- list_fmap_compose. apply Forall_fmap_ext_1.
    eapply Forall_impl; [exact Hpre|]. by intros fi [-> _]. }
  rewrite Hes, Hmap, sort_Strings_prefix in Hall |- *.
  apply Forall2_names; [|done].
  apply Forall_forall. intros n Hn.
  rewrite sort_Strings_perm in Hn. apply list_elem_of_fmap in Hn as (fi & -> & Hfi).
  rewrite Forall_forall in Hpre. by destruct (Hpre fi Hfi).
Qed.

End EndToEnd.
(** * The text that writeAssets writes *)

Section Text.
Context {G : GoLib}.

Lemma Fprintf_ok (s : string) (w : Gen.writer) :
  Gen.failed w = None →
  Gen.Fprintf s w = (Returns None, {| Gen.out := Gen.out w +:+ s; Gen.failed := None |}).
Proof. intros Hw. unfold Gen.Fprintf. by rewrite Hw. Qed.

Ltac write_step :=
  unfold Gen.checked, Gen.dropped, Gen.bind, Gen.ret;
  repeat (rewrite Fprintf_ok by done; cbn [Gen.out Gen.failed]).

Lemma writeElement_renders c pa el w :
  Gen.failed w = None → Gen.element c pa = Some el →
  Gen.writeElement c pa w
    = (Returns None, {| Gen.out := Gen.out w +:+ render_element el; Gen.failed := None |}).
Proof.
  intros Hw. unfold Gen.element, Gen.writeElement.
  destruct (Gen.asset_of pa) as [d|f].
  - destruct (MarshalText (Gen.d_modTime d)) as [s|]; [|done]. intros [= <-].
    write_step. unfold render_element. by rewrite !string_app_assoc.
  - destruct (Gen.Open (Gen.Input c) (Gen.path pa)) as [bytes|]; [|done].
    destruct (MarshalText (Gen.f_modTime f)) as [s|]; [|done]. intros [= <-].
    write_step. unfold render_element. by rewrite !string_app_assoc.
Qed.

Lemma writeElements_renders c toc : ∀ els w,
  Gen.failed w = None → Gen.elements c toc = Some els →
  Gen.writeElements c toc w
    = (Returns None, {| Gen.out := Gen.out w +:+ render_elements els; Gen.failed := None |}).
Proof.
  induction toc as [|pa toc IH]; intros els w Hw; simpl.
  - intros [= <-]. unfold Gen.ret. destruct w as [o f]. simpl in *. subst.
    do 2 f_equal. clear. induction o as [|x o IH]; [done|].
    change (String x o = String x (o +:+ EmptyString)). by f_equal.
  - destruct (Gen.element c pa) as [el|] eqn:Hel; [|done].
    destruct (Gen.elements c toc) as [els'|]; [|done]. intros [= <-].
    unfold Gen.bind. rewrite (writeElement_renders _ _ _ _ Hw Hel).
    rewrite (IH els') by done. simpl. by rewrite string_app_assoc.
Qed.

Lemma string_app_empty (s : string) : s +:+ EmptyString = s.
Proof.
  induction s as [|x s IH]; [done|].
  change (String x (s +:+ EmptyString) = String x s). by f_equal.
Qed.

Lemma writeEntries_renders es : ∀ w,
  Gen.failed w = None →
  Gen.writeEntries es w
    = (Returns tt, {| Gen.out := Gen.out w +:+ render_entries es; Gen.failed := None |}).
Proof.
  induction es as [|e es IH]; intros w Hw; simpl.
  - unfold Gen.ret. rewrite string_app_empty. destruct w; simpl in *; by subst.
  - write_step. rewrite IH by done. simpl. by rewrite !string_app_assoc.
Qed.

Lemma writeAssignments_renders toc : ∀ w,
  Gen.failed w = None →
  Gen.writeAssignments toc w
    = (Returns tt, {| Gen.out := Gen.out w +:+ render_assignments (Gen.assignments toc);
                      Gen.failed := None |}).
Proof.
  induction toc as [|pa toc IH]; intros w Hw; simpl.
  - unfold Gen.ret. rewrite string_app_empty. destruct w; simpl in *; by subst.
  - destruct (Gen.asset_of pa) as [d|f]; [|by apply IH].
    write_step. rewrite writeEntries_renders by done. cbn [Gen.out Gen.failed].
    write_step. rewrite IH by done. simpl. by rewrite !string_app_assoc.
Qed.

(** When writeAssets emits the whole initializer to a writer that has not
    failed, it returns nil and has written the text of the initializer. *)
Lemma writeAssets_renders c toc init w :
  Gen.failed w = None → Gen.emitted c toc = Some init →
  Gen.writeAssets c toc w
    = (Returns None, {| Gen.out := Gen.out w +:+ render init; Gen.failed := None |}).
Proof.
  intros Hw. unfold Gen.emitted.
  destruct (Gen.elements c toc) as [els|] eqn:Hels; [|done]. intros [= <-].
  unfold Gen.writeAssets. write_step.
  rewrite (writeElements_renders c toc els) by done. cbn [Gen.out Gen.failed].
  write_step. rewrite writeAssignments_renders by done. cbn [Gen.out Gen.failed].
  write_step. unfold render. simpl. by rewrite !string_app_assoc.
Qed.

(** A file of the table of contents that cannot be opened: writeElement
    drops the error of Open and panics in io.Copy. *)
Lemma writeElement_unreadable c pa f err w :
  Gen.asset_of pa = Gen.File f → Gen.Open (Gen.Input c) (Gen.path pa) = Err err →
  Gen.failed w = None →
  (Gen.writeElement c pa w).1 = Panics nil_dereference.
Proof.
  intros Hf Hopen Hw. unfold Gen.writeElement. rewrite Hf, Hopen.
  write_step. done.
Qed.

End Text.

(** C7, on the code: /a.txt is in the table of contents and cannot be
    opened when it is to be written; Translate does not return the error
    of Open, nor any error: it panics with a nil dereference, and leaves
    the output file with the text written so far. *)
Theorem Translate_unreadable_source_panics :
  Gen.Open Demo.unreadable "/a.txt" = Err Demo.permission_denied
  ∧ Gen.returned (Gen.Translate 5 Demo.env (Demo.config Demo.unreadable))
      = Panics nil_dereference
  ∧ (∀ err, Gen.returned (Gen.Translate 5 Demo.env (Demo.config Demo.unreadable))
            ≠ Returns (Some err))
  ∧ is_Some (Gen.output (Gen.Translate 5 Demo.env (Demo.config Demo.unreadable))).
Proof.
  assert (Gen.returned (Gen.Translate 5 Demo.env (Demo.config Demo.unreadable))
          = Panics nil_dereference) as H by (vm_compute; reflexivity).
  split; [reflexivity|]. split; [exact H|]. split; [by rewrite H|].
  vm_compute. eauto.
Qed.

(** * Properties of the generated code *)

Section Handles.
Context {G : GoLib}.

(** C4: Seek on a file handle panics, for every offset and whence and
    whatever the file holds. *)
Theorem Seek_file_handle_panics (i : Rt.compressedFileInstance) (offset whence : Z) :
  Rt.Seek (Rt.FileHandle i) offset whence = Panics "Seek not yet implemented".
Proof. reflexivity. Qed.

(** C10: Seek on a directory handle returns, for every offset and whence,
    the position 0 and the error [cannot Seek in directory] followed by
    the name; it does not panic. *)
Theorem Seek_dir_handle_returns_error (d : Rt.dir) (offset whence : Z) :
  Rt.Seek (Rt.DirHandle d) offset whence
    = Returns (0, Some (errorString ("cannot Seek in directory " +:+ Rt.d_name d)))
  ∧ is_panic (Rt.Seek (Rt.DirHandle d) offset whence) = false.
Proof. split; reflexivity. Qed.

(** C8, as amended: Read on a directory handle and Readdir on a file
    handle fail for every argument, by returning an error value that
    names the directory or the file; neither panics. *)
Theorem wrong_kind_returns_error :
  (∀ (d : Rt.dir) (n : nat),
     Rt.Read (Rt.DirHandle d) n
       = Returns (Rt.DirHandle d, [], 0,
                  Some (errorString ("cannot Read from directory " +:+ Rt.d_name d))))
  ∧ (∀ (i : Rt.compressedFileInstance) (count : Z),
       Rt.Readdir (Rt.FileHandle i) count
         = Returns (Err (errorString ("cannot Readdir from file " +:+ Rt.f_name (Rt.cf i))))).
Proof. split; intros; reflexivity. Qed.

(** C6, as amended: Stat returns the record of the handle; its size is 0
    for a directory and the uncompressed size for a file; its mode is
    0444 for a file, which has no write bit, and 0755 with the directory
    bit for a directory; the directory bit is set exactly for directory
    handles. *)
Theorem Stat_metadata (h : Rt.handle) :
  match h with
  | Rt.FileHandle i =>
      Rt.Stat h = Returns (Ok (Rt.File (Rt.cf i)))
      ∧ Rt.Size (Rt.File (Rt.cf i)) = Rt.uncompressedSize (Rt.cf i)
      ∧ Rt.Mode (Rt.File (Rt.cf i)) = 292
      ∧ Z.land (Rt.Mode (Rt.File (Rt.cf i))) Rt.write_bits = 0
      ∧ Z.testbit (Rt.Mode (Rt.File (Rt.cf i))) 31 = false
      ∧ Rt.IsDir (Rt.File (Rt.cf i)) = false
  | Rt.DirHandle d =>
      Rt.Stat h = Returns (Ok (Rt.Dir d))
      ∧ Rt.Size (Rt.Dir d) = 0
      ∧ Rt.Mode (Rt.Dir d) = 493 + 2 ^ 31
      ∧ Z.land (Rt.Mode (Rt.Dir d)) Rt.write_bits = 128
      ∧ Z.testbit (Rt.Mode (Rt.Dir d)) 31 = true
      ∧ Rt.IsDir (Rt.Dir d) = true
  end.
Proof. destruct h; repeat split; reflexivity. Qed.

End Handles.

(** C8, as stated, fails: Read on the handle of the directory sub returns
    an error and does not panic, and so does Readdir on the handle of a
    file. *)
Lemma wrong_kind_is_not_fatal :
  ¬ (is_panic (Rt.Read (Rt.DirHandle Demo.sub_dir) 8) = true)
  ∧ ¬ (is_panic (Rt.Readdir (Rt.FileHandle Demo.a_txt_open) 0) = true).
Proof. split; discriminate. Qed.

(** C6, as stated, fails: the mode of a directory handle is not read-only,
    the write bit of the owner being set in 0755. *)
Lemma dir_mode_not_read_only :
  Rt.Stat (Rt.DirHandle Demo.sub_dir) = Returns (Ok (Rt.Dir Demo.sub_dir))
  ∧ Z.land (Rt.Mode (Rt.Dir Demo.sub_dir)) Rt.write_bits ≠ 0
  ∧ Z.testbit (Rt.Mode (Rt.Dir Demo.sub_dir)) 7 = true.
Proof. repeat split. discriminate. Qed.
(** * The properties at the small instance *)

#[local] Existing Instance Demo.lib.

Lemma unescape_escape_byte (b : byte) (s : string) :
  Demo.unescape (Demo.escape_byte b s) = b :: Demo.unescape s.
Proof. destruct b; reflexivity. Qed.

Lemma unescape_escape (bs : list byte) : Demo.unescape (Demo.escape bs) = bs.
Proof.
  induction bs as [|b bs IH]; [done|].
  cbn [Demo.escape]. by rewrite unescape_escape_byte, IH.
Qed.

Lemma demo_laws : GoLaws Demo.lib.
Proof.
  split.
  - done.
  - exact unescape_escape.
  - by intros t s [= ->].
Qed.

Lemma demo_walked :
  Gen.findFiles 5 Demo.tree {| Gen.toc := []; Gen.logged := [] |} = Returns (None, Demo.walked).
Proof. vm_cast_no_check (@eq_refl _ (@Returns (option error * Gen.walkState) (None, Demo.walked))). Qed.

Lemma demo_emitted : Gen.emitted (Demo.config Demo.tree) (Gen.toc Demo.walked) = Some Demo.init.
Proof. vm_cast_no_check (@eq_refl _ (Some Demo.init)). Qed.

Lemma demo_assets : Rt.AssetsFS Demo.init = Returns Demo.assets.
Proof. vm_cast_no_check (eq_refl (Returns Demo.assets)). Qed.


Lemma demo_same_tree : same_tree Demo.tree Demo.tree'.
Proof.
  split; [done| |done].
  intros p. unfold Demo.tree', Demo.tree; simpl.
  repeat case_decide; simplify_eq; simpl; try done. apply perm_swap.
Qed.


Lemma demo_a_txt_listed : Demo.a_txt_entry ∈ Gen.toc Demo.walked.
Proof. right. left. Qed.

Lemma demo_root : Demo.assets !! "/" = Some (Rt.Dir Demo.root_dir).
Proof. vm_cast_no_check (@eq_refl _ (Some (Rt.Dir Demo.root_dir))). Qed.


Lemma demo_a_txt_present : is_Some (Demo.assets !! "/a.txt").
Proof.
  exists (Rt.File Demo.a_txt).
  vm_cast_no_check (@eq_refl _ (Some (Rt.File Demo.a_txt))).
Qed.

(** C2 at a path that is not in the scenario, and at /a.txt. *)
Lemma Open_generated_witness :
  Demo.assets !! "/does/not/exist" = None
  ∧ Rt.Open Demo.assets "/does/not/exist" = Returns (Err ErrNotExist)
  ∧ ∃ h, Rt.Open Demo.assets "/a.txt" = Returns (Ok h).
Proof.
  destruct (Open_generated (L := demo_laws) (Demo.config Demo.tree) (Gen.toc Demo.walked)
              Demo.init Demo.assets "/does/not/exist" demo_emitted demo_assets)
    as (Hkey & Hmissing & _).
  destruct (Open_generated (L := demo_laws) (Demo.config Demo.tree) (Gen.toc Demo.walked)
              Demo.init Demo.assets "/a.txt" demo_emitted demo_assets)
    as (_ & _ & Hpresent).
  assert (Demo.assets !! "/does/not/exist" = None) as Hnone.
  { apply Hkey. vm_compute. intros H. repeat (inversion_clear H as [|? ? ? H']; rename H' into H). }
  split; [exact Hnone|]. split; [exact (Hmissing Hnone)|].
  exact (Hpresent demo_a_txt_present).
Defined.

(** C3 at the root of the scenario, and with the count 5. *)
Lemma Readdir_lists_witness :
  Rt.Readdir (Rt.DirHandle Demo.root_dir) 5
    = Panics ("httpDir.Readdir count unsupported value: " +:+ pretty 5 +:+ nl)
  ∧ ∃ fis,
      Gen.ReadDir Demo.tree "/" = Ok fis
      ∧ Rt.Readdir (Rt.DirHandle Demo.root_dir) 0
          = Returns (Ok (sort_Strings ((λ fi, Demo.join "/" (Gen.Name fi)) <$> fis)))
      ∧ Sorted String.le (Rt.entries Demo.root_dir)
      ∧ Rt.entries Demo.root_dir ≡ₚ (λ fi, Demo.join "/" (Gen.Name fi)) <$> fis
      ∧ Forall (λ q, ∃ a, Demo.assets !! q = Some a ∧ Rt.Name a = Demo.base q)
          (Rt.entries Demo.root_dir)
      ∧ (fis = [] → Rt.Readdir (Rt.DirHandle Demo.root_dir) 0 = Returns (Ok []))
      ∧ ∀ pre,
          Forall (λ fi, Demo.join "/" (Gen.Name fi) = pre +:+ Gen.Name fi
                        ∧ Demo.base (pre +:+ Gen.Name fi) = Gen.Name fi) fis →
          Forall2 (λ q n, ∃ a, Demo.assets !! q = Some a ∧ Rt.Name a = n)
            (Rt.entries Demo.root_dir) (sort_Strings (Gen.Name <$> fis))
          ∧ Sorted String.le (sort_Strings (Gen.Name <$> fis)).
Proof.
  destruct (Readdir_lists (L := demo_laws)) as (_ & _ & Hcount & Hgen).
  split.
  - apply Hcount. lia.
  - exact (Hgen 5%nat (Demo.config Demo.tree) Demo.walked Demo.init Demo.assets "/" Demo.root_dir
             demo_walked demo_emitted demo_assets demo_root).
Defined.


(** C9 at the scenario, listed to the two runs in different orders. *)
Lemma Translate_deterministic_witness :
  same_tree Demo.tree Demo.tree'
  ∧ Gen.Translate 5 Demo.env (Demo.config Demo.tree)
    = Gen.Translate 5 Demo.env (Demo.config Demo.tree').
Proof.
  split; [exact demo_same_tree|].
  apply Translate_deterministic; [exact demo_same_tree|reflexivity..].
Defined.
(** * More on the walk *)

Section WalkMore.
Context {G : GoLib}.
Variable fs : Gen.FileSystem.

Local Arguments Gen.walkFn : simpl never.

(** X1: readDirPaths returns the error of a failed listing; of a listing
    it returns the joined paths of all the entries, each once per entry,
    in increasing order. *)
Theorem readDirPaths_sorted (dirname : string) :
  match Gen.ReadDir fs dirname with
  | Err err => Gen.readDirPaths fs dirname = Err err
  | Ok fis =>
      ∃ paths,
        Gen.readDirPaths fs dirname = Ok paths
        ∧ Sorted String.le paths
        ∧ paths ≡ₚ (λ fi, Join dirname (Gen.Name fi)) <$> fis
        ∧ length paths = length fis
  end.
Proof.
  unfold Gen.readDirPaths. destruct (Gen.ReadDir fs dirname) as [fis|err]; [|done].
  eexists. split; [done|]. split; [apply sort_Strings_sorted|].
  split; [apply sort_Strings_perm|].
  by rewrite sort_Strings_perm, length_fmap.
Qed.

(** ** The walk does not panic *)

Lemma walkFn_no_panic path info err st v :
  Gen.walkFn fs path (Some info) err st ≠ Panics v.
Proof.
  unfold Gen.walkFn. destruct err; [done|].
  destruct (Gen.IsDir info); [|done]. by destruct (Gen.readDirPaths fs path).
Qed.

Lemma walkFn_no_diverge path fi err st :
  Gen.walkFn fs path fi err st ≠ Diverges.
Proof.
  unfold Gen.walkFn. destruct err; [done|]. destruct fi as [fi|]; [|done].
  destruct (Gen.IsDir fi); [|done]. by destruct (Gen.readDirPaths fs path).
Qed.

Lemma walkNames_no_panic (w : walker) path names :
  (∀ p fi st v, w p fi st ≠ Panics v) →
  ∀ st v, Gen.walkNames w fs path names st ≠ Panics v.
Proof.
  intros Hw. induction names as [|name names IH]; intros st v; simpl; [done|].
  destruct (Gen.Stat fs (Join path name)) as [fi|e]; [|apply IH].
  destruct (w (Join path name) fi st) as [[[e'|] st1]|v'|] eqn:Hw1;
    [|apply IH|by apply Hw in Hw1|done].
  destruct (negb (Gen.IsDir fi) || bool_decide (e' ≠ SkipDir)); [done|apply IH].
Qed.

Lemma walk_no_panic fuel : ∀ p fi st v, Gen.walk fuel fs p fi st ≠ Panics v.
Proof.
  induction fuel as [|fuel IH]; intros p fi st v; [done|]. cbn [Gen.walk].
  destruct (Gen.walkFn fs p (Some fi) None st) as [[[e|] st1]|v'|] eqn:Hfn;
    [| |by apply walkFn_no_panic in Hfn|done].
  - by destruct (Gen.IsDir fi && bool_decide (e = SkipDir)).
  - destruct (negb (Gen.IsDir fi)); [done|].
    destruct (Gen.readDirNames fs p) as [names|e]; [|apply walkFn_no_panic].
    by apply walkNames_no_panic.
Qed.

(** X2: findFiles does not panic, whatever the file system answers and
    whatever the state it starts in: vfsutil.Walk never calls walkFn with
    neither a FileInfo nor an error. *)
Theorem findFiles_never_panics (fuel : nat) (st : Gen.walkState) (v : string) :
  Gen.findFiles fuel fs st ≠ Panics v.
Proof.
  unfold Gen.findFiles, Gen.Walk.
  destruct (Gen.Stat fs "/") as [info|e]; [|done].
  pose proof (walk_no_panic fuel "/" info st) as Hw.
  destruct (Gen.walk fuel fs "/" info st) as [[[e|] st1]|v'|]; [done..| |done].
  intros [= <-]. by apply (Hw v').
Qed.

(** ** The walk of a tree of bounded depth returns *)

Lemma walkNames_returns (w : walker) path names :
  (∀ name fi, name ∈ names → Gen.Stat fs (Join path name) = Ok fi →
              returns w (Join path name) fi) →
  ∀ st, ∃ r st', Gen.walkNames w fs path names st = Returns (r, st').
Proof.
  induction names as [|name names IH]; intros Hw st; simpl; [eauto|].
  assert (∀ st, ∃ r st', Gen.walkNames w fs path names st = Returns (r, st')) as IH'.
  { apply IH. intros n fi Hn. apply Hw. by right. }
  destruct (Gen.Stat fs (Join path name)) as [fi|e] eqn:Hstat; [|apply IH'].
  destruct (Hw name fi (list_elem_of_here _ _) Hstat st) as (r & st1 & ->).
  destruct r as [e'|]; [|apply IH'].
  destruct (negb (Gen.IsDir fi) || bool_decide (e' ≠ SkipDir)); [eauto|apply IH'].
Qed.

Lemma walk_returns n path info :
  bounded fs n path info → ∀ fuel, (n ≤ fuel)%nat → returns (Gen.walk fuel fs) path info.
Proof.
  induction 1 as [n path info Hd|n path info err Hd Hrd|n path info fis Hd Hrd Hb IH];
    intros [|fuel] Hle st; try lia; cbn [Gen.walk]; unfold Gen.walkFn, Gen.readDirPaths,
    Gen.readDirNames; rewrite Hd; simpl.
  - eauto.
  - rewrite Hrd. destruct (bool_decide (err = SkipDir)); eauto.
  - rewrite Hrd. apply walkNames_returns.
    intros name fi Hname Hstat.
    unfold sort_Strings in Hname. rewrite merge_sort_Permutation in Hname.
    apply list_elem_of_fmap in Hname as (fi0 & -> & Hfi0).
    apply (IH fi0 fi Hfi0 Hstat). lia.
Qed.

(** X3: when the tree below the root is at most [n] deep, findFiles
    returns, with nil or an error, for every fuel from [n] on. *)
Theorem findFiles_returns (n : nat) (info : Gen.FileInfo) (fuel : nat) (st : Gen.walkState) :
  Gen.Stat fs "/" = Ok info → bounded fs n "/" info → (n ≤ fuel)%nat →
  ∃ r st', Gen.findFiles fuel fs st = Returns (r, st').
Proof.
  intros Hstat Hb Hle. unfold Gen.findFiles, Gen.Walk. rewrite Hstat.
  destruct (walk_returns n "/" info Hb fuel Hle st) as (r & st' & ->).
  destruct r; eauto.
Qed.

End WalkMore.

Section WalkOrder.
Context {G : GoLib}.
Variable fs : Gen.FileSystem.

Local Arguments Gen.walkFn : simpl never.

(** ** The table of contents and the log only grow *)

Lemma continues_refl st : continues st st.
Proof. by split. Qed.

Lemma continues_trans st1 st2 st3 : continues st1 st2 → continues st2 st3 → continues st1 st3.
Proof. intros [? ?] [? ?]. split; by etrans. Qed.

Lemma continues_log line st : continues st (Gen.log_Printf line st).
Proof. split; [done|]. by apply prefix_app_r. Qed.

Lemma continues_append pa st : continues st (Gen.append_toc pa st).
Proof. split; [|done]. by apply prefix_app_r. Qed.

Lemma walkFn_continues path fi err st r st' :
  Gen.walkFn fs path fi err st = Returns (r, st') → continues st st'.
Proof.
  unfold Gen.walkFn. destruct err as [e|].
  - intros [= <- <-]. apply continues_log.
  - destruct fi as [fi|]; [|done]. destruct (Gen.IsDir fi).
    + destruct (Gen.readDirPaths fs path); intros [= <- <-];
        [apply continues_append|apply continues_refl].
    + intros [= <- <-]. apply continues_append.
Qed.

Lemma walkNames_continues (w : walker) path names :
  (∀ p fi st r st', w p fi st = Returns (r, st') → continues st st') →
  ∀ st r st', Gen.walkNames w fs path names st = Returns (r, st') → continues st st'.
Proof.
  intros Hw. induction names as [|name names IH]; intros st r st'; simpl.
  - intros [= <- <-]. apply continues_refl.
  - destruct (Gen.Stat fs (Join path name)) as [fi|e].
    + destruct (w (Join path name) fi st) as [[[e'|] st1]|v|] eqn:Hw1; try done.
      * destruct (negb (Gen.IsDir fi) || bool_decide (e' ≠ SkipDir)).
        -- intros [= <- <-]. eauto.
        -- intros H. eapply continues_trans; eauto.
      * intros H. eapply continues_trans; eauto.
    + intros H. eapply continues_trans; [apply continues_log|eauto].
Qed.

Lemma walk_continues fuel : ∀ p fi st r st',
  Gen.walk fuel fs p fi st = Returns (r, st') → continues st st'.
Proof.
  induction fuel as [|fuel IH]; intros p fi st r st'; [done|]. cbn [Gen.walk].
  destruct (Gen.walkFn fs p (Some fi) None st) as [[[e|] st1]|v|] eqn:Hfn; try done;
    apply walkFn_continues in Hfn.
  - destruct (Gen.IsDir fi && bool_decide (e = SkipDir)); by intros [= <- <-].
  - destruct (negb (Gen.IsDir fi)); [by intros [= <- <-]|].
    destruct (Gen.readDirNames fs p) as [names|e].
    + intros H. eapply continues_trans; [exact Hfn|]. by eapply walkNames_continues.
    + intros H%walkFn_continues. by eapply continues_trans.
Qed.

(** X4: findFiles only appends: the table of contents and the log it
    was given are kept, in front of what it adds. *)
Theorem findFiles_continues (fuel : nat) (st : Gen.walkState)
    (r : option error) (st' : Gen.walkState) :
  Gen.findFiles fuel fs st = Returns (r, st') →
  Gen.toc st `prefix_of` Gen.toc st' ∧ Gen.logged st `prefix_of` Gen.logged st'.
Proof.
  unfold Gen.findFiles, Gen.Walk. destruct (Gen.Stat fs "/") as [info|e].
  - destruct (Gen.walk fuel fs "/" info st) as [[[e|] st1]|v|] eqn:Hw; try done;
      intros [= <- <-]; by apply walk_continues in Hw.
  - rewrite walkFn_error. intros [= <- <-]. apply continues_log.
Qed.

(** ** Parents stand before their children *)

Lemma linked_mono p toc toc' : toc `prefix_of` toc' → linked p toc → linked p toc'.
Proof.
  intros [k ->] [->|(j & pd & d & Hj & Hd & Hin)]; [by left|right].
  exists j, pd, d. split; [|done]. by apply lookup_app_l_Some.
Qed.

Lemma parent_first_snoc toc pa :
  parent_first toc → linked (Gen.path pa) toc → parent_first (toc ++ [pa]).
Proof.
  intros Hpf Hl i pa' Hi.
  apply lookup_app_Some in Hi as [Hi|[Hge Hi]].
  - destruct (Hpf i pa' Hi) as [?|(j & pd & d & Hlt & Hj & Hd & Hin)]; [by left|right].
    exists j, pd, d. split; [done|]. split; [by apply lookup_app_l_Some|done].
  - apply list_lookup_singleton_Some in Hi as [Hi <-].
    destruct Hl as [?|(j & pd & d & Hj & Hd & Hin)]; [by left|right].
    exists j, pd, d. split; [apply lookup_lt_Some in Hj; lia|].
    split; [by apply lookup_app_l_Some|done].
Qed.

Lemma walkFn_parent_first path info st r st' :
  parent_first (Gen.toc st) → linked path (Gen.toc st) →
  Gen.walkFn fs path (Some info) None st = Returns (r, st') →
  parent_first (Gen.toc st').
Proof.
  intros Hpf Hl. unfold Gen.walkFn. destruct (Gen.IsDir info).
  - destruct (Gen.readDirPaths fs path); intros [= <- <-]; [|done].
    by apply parent_first_snoc.
  - intros [= <- <-]. by apply parent_first_snoc.
Qed.

Lemma walkNames_parent_first (w : walker) path names :
  keeps_order w → ∀ st r st',
  parent_first (Gen.toc st) →
  (∀ name, name ∈ names → linked (Join path name) (Gen.toc st)) →
  Gen.walkNames w fs path names st = Returns (r, st') →
  parent_first (Gen.toc st').
Proof.
  intros Hw. induction names as [|name names IH]; intros st r st' Hpf Hl; simpl.
  - by intros [= <- <-].
  - assert (∀ st1, continues st st1 →
              ∀ n, n ∈ names → linked (Join path n) (Gen.toc st1)) as Hl'.
    { intros st1 [Hc _] n Hn. eapply linked_mono; [exact Hc|]. apply Hl. by right. }
    destruct (Gen.Stat fs (Join path name)) as [fi|e].
    + destruct (w (Join path name) fi st) as [[[e'|] st1]|v|] eqn:Hw1; try done;
        destruct (Hw _ _ _ _ _ Hpf (Hl name (list_elem_of_here _ _)) Hw1) as [Hpf1 Hc1].
      * destruct (negb (Gen.IsDir fi) || bool_decide (e' ≠ SkipDir)).
        -- by intros [= <- <-].
        -- apply IH; eauto.
      * apply IH; eauto.
    + apply IH; [done|]. apply Hl', continues_log.
Qed.

Lemma walk_keeps_order fuel : keeps_order (Gen.walk fuel fs).
Proof.
  induction fuel as [|fuel IH]; intros p fi st r st' Hpf Hl; [done|].
  intros Hwalk. split; [|by eapply walk_continues]. revert Hwalk. cbn [Gen.walk].
  destruct (Gen.walkFn fs p (Some fi) None st) as [[[e|] st1]|v|] eqn:Hfn; try done;
    pose proof (walkFn_parent_first _ _ _ _ _ Hpf Hl Hfn) as Hpf1.
  - destruct (Gen.IsDir fi && bool_decide (e = SkipDir)); by intros [= <- <-].
  - destruct (negb (Gen.IsDir fi)) eqn:Hd; [by intros [= <- <-]|].
    destruct (Gen.readDirNames fs p) as [names|e] eqn:Hnames.
    + apply walkNames_parent_first; [done..|].
      intros name Hname. right.
      unfold Gen.walkFn, Gen.readDirPaths in Hfn. unfold Gen.readDirNames in Hnames.
      apply negb_false_iff in Hd. rewrite Hd in Hfn.
      destruct (Gen.ReadDir fs p) as [fis|]; [|done].
      injection Hfn as <-. injection Hnames as <-.
      eexists (length (Gen.toc st)), _, _. simpl.
      split; [apply list_lookup_middle; done|]. split; [done|]. simpl.
      unfold sort_Strings in *. rewrite merge_sort_Permutation in Hname |- *.
      apply list_elem_of_fmap in Hname as (fi0 & -> & Hfi0).
      apply list_elem_of_fmap. eauto.
    + rewrite walkFn_error. by intros [= <- <-].
Qed.

Lemma findFiles_ordered (fuel : nat) (r : option error) (st : Gen.walkState) :
  Gen.findFiles fuel fs {| Gen.toc := []; Gen.logged := [] |} = Returns (r, st) →
  parent_first (Gen.toc st).
Proof.
  assert (parent_first []) as H0 by (intros i pa Hi; by rewrite lookup_nil in Hi).
  unfold Gen.findFiles, Gen.Walk. destruct (Gen.Stat fs "/") as [info|e].
  - destruct (Gen.walk fuel fs "/" info _) as [[[e|] st1]|v|] eqn:Hw; try done;
      intros [= <- <-]; eapply walk_keeps_order; try exact Hw; try done; by left.
  - rewrite walkFn_error. by intros [= <- <-].
Qed.

(** X5: in the table of contents that findFiles builds, every entry
    other than the root is listed by a directory that stands before it. *)
Theorem findFiles_parent_first (fuel : nat) (r : option error) (st : Gen.walkState) :
  Gen.findFiles fuel fs {| Gen.toc := []; Gen.logged := [] |} = Returns (r, st) →
  parent_first (Gen.toc st).
Proof. apply findFiles_ordered. Qed.

(** X18: the first entry of the table of contents that findFiles builds,
    if there is one, is the entry of the root. *)
Theorem findFiles_root_first (fuel : nat) (r : option error) (st : Gen.walkState)
    (pa : Gen.pathAsset) :
  Gen.findFiles fuel fs {| Gen.toc := []; Gen.logged := [] |} = Returns (r, st) →
  Gen.toc st !! 0%nat = Some pa →
  Gen.path pa = "/" ∧ entry_at fs "/" = Some pa.
Proof.
  intros Hwalk H0.
  assert (Gen.path pa = "/") as Hp.
  { destruct (findFiles_ordered fuel r st Hwalk 0%nat pa H0) as [?|(j & ? & ? & Hlt & _)];
      [done|lia]. }
  split; [done|]. rewrite <- Hp.
  apply (findFiles_described fs fuel r st Hwalk). by eapply list_elem_of_lookup_2.
Qed.

End WalkOrder.

Section WalkComplete.
Context {G : GoLib}.
Variable fs : Gen.FileSystem.

Local Arguments Gen.walkFn : simpl never.

(** ** The walk never returns SkipDir *)



(** ** What is listed and can be described is in the table of contents *)







(** X7: every entry of the table of contents that findFiles builds is
    made from the Stat of its path: the name is the base of the path, the
    size and the modification time are those of the FileInfo, a directory
    has the result of readDirPaths as its entries; so two entries with
    the same path are the same entry. *)
Theorem findFiles_entries (fuel : nat) (r : option error) (st : Gen.walkState)
    (pa : Gen.pathAsset) :
  Gen.findFiles fuel fs {| Gen.toc := []; Gen.logged := [] |} = Returns (r, st) →
  pa ∈ Gen.toc st →
  (∃ fi,
     Gen.Stat fs (Gen.path pa) = Ok fi
     ∧ match Gen.asset_of pa with
       | Gen.File f =>
           Gen.IsDir fi = false ∧ Gen.f_name f = Base (Gen.path pa)
           ∧ Gen.uncompressedSize f = Gen.Size fi ∧ Gen.f_modTime f = Gen.ModTime fi
       | Gen.Dir d =>
           Gen.IsDir fi = true ∧ Gen.d_name d = Base (Gen.path pa)
           ∧ Gen.d_modTime d = Gen.ModTime fi
           ∧ Gen.readDirPaths fs (Gen.path pa) = Ok (Gen.entries d)
       end)
  ∧ ∀ pa', pa' ∈ Gen.toc st → Gen.path pa' = Gen.path pa → pa' = pa.
Proof.
  intros Hwalk Hin. pose proof (findFiles_described _ _ _ _ Hwalk) as Hd. split.
  - pose proof (Hd pa Hin) as He. unfold entry_at in He.
    destruct (Gen.Stat fs (Gen.path pa)) as [fi|]; [|done]. exists fi. split; [done|].
    destruct (Gen.IsDir fi).
    + destruct (Gen.readDirPaths fs (Gen.path pa)) as [es|]; [|done].
      injection He as <-. done.
    + injection He as <-. done.
  - intros pa' Hin' Hp. by eapply described_unique.
Qed.

End WalkComplete.

(** * More on writing *)

Section Appends.
Context {G : GoLib}.













End Appends.

Section Outcome.
Context {G : GoLib}.

Ltac write_step :=
  unfold Gen.checked, Gen.dropped, Gen.bind, Gen.ret, Gen.panic;
  repeat (rewrite Fprintf_ok by done; cbn [Gen.out Gen.failed]).

Lemma writeElement_fails c pa w :
  Gen.failed w = None → Gen.element c pa = None →
  (∃ err, MarshalText (modTime_of pa) = Err err
          ∧ (Gen.writeElement c pa w).1 = Returns (Some err))
  ∨ (∃ f err, Gen.asset_of pa = Gen.File f
              ∧ Gen.Open (Gen.Input c) (Gen.path pa) = Err err
              ∧ (Gen.writeElement c pa w).1 = Panics nil_dereference).
Proof.
  intros Hw. unfold Gen.element, Gen.writeElement, modTime_of.
  destruct (Gen.asset_of pa) as [d|f].
  - destruct (MarshalText (Gen.d_modTime d)) as [s|err]; [done|]. intros _.
    left. exists err. split; [done|]. by write_step.
  - destruct (Gen.Open (Gen.Input c) (Gen.path pa)) as [bytes|err].
    + destruct (MarshalText (Gen.f_modTime f)) as [s|err]; [done|]. intros _.
      left. exists err. split; [done|]. by write_step.
    + intros _. right. exists f, err. split; [done|]. split; [done|]. by write_step.
Qed.

Lemma writeElements_fails c toc : ∀ w,
  Gen.failed w = None → Gen.elements c toc = None →
  (∃ pa err, pa ∈ toc ∧ MarshalText (modTime_of pa) = Err err
             ∧ (Gen.writeElements c toc w).1 = Returns (Some err))
  ∨ (∃ pa f err, pa ∈ toc ∧ Gen.asset_of pa = Gen.File f
                 ∧ Gen.Open (Gen.Input c) (Gen.path pa) = Err err
                 ∧ (Gen.writeElements c toc w).1 = Panics nil_dereference).
Proof.
  induction toc as [|pa toc IH]; intros w Hw; simpl; [done|].
  destruct (Gen.element c pa) as [el|] eqn:Hel.
  - destruct (Gen.elements c toc) as [els|] eqn:Hels; [done|]. intros _.
    unfold Gen.bind. rewrite (writeElement_renders _ _ _ _ Hw Hel).
    destruct (IH {| Gen.out := Gen.out w +:+ render_element el; Gen.failed := None |}
                eq_refl eq_refl)
      as [(pa' & err & Hin & Hm & Hr)|(pa' & f & err & Hin & Hf & Ho & Hr)].
    + left. exists pa', err. split; [by right|done].
    + right. exists pa', f, err. split; [by right|done].
  - intros _. unfold Gen.bind.
    destruct (writeElement_fails c pa w Hw Hel)
      as [(err & Hm & Hr)|(f & err & Hf & Ho & Hr)].
    + left. exists pa, err. split; [by left|]. split; [done|].
      destruct (Gen.writeElement c pa w) as [[[e|]|v|] w1]; simpl in *; congruence.
    + right. exists pa, f, err. split; [by left|]. split; [done|]. split; [done|].
      destruct (Gen.writeElement c pa w) as [[[e|]|v|] w1]; simpl in *; congruence.
Qed.

Lemma writeAssets_cases (c : Gen.Config) (toc : list Gen.pathAsset) (w : Gen.writer) :
  Gen.failed w = None →
  match (Gen.writeAssets c toc w).1 with
  | Returns None =>
      ∃ init, Gen.emitted c toc = Some init
              ∧ Gen.out (Gen.writeAssets c toc w).2 = Gen.out w +:+ render init
  | Returns (Some err) =>
      ∃ pa, pa ∈ toc ∧ MarshalText (modTime_of pa) = Err err
  | Panics v =>
      v = nil_dereference
      ∧ ∃ pa f err, pa ∈ toc ∧ Gen.asset_of pa = Gen.File f
                    ∧ Gen.Open (Gen.Input c) (Gen.path pa) = Err err
  | Diverges => False
  end.
Proof.
  intros Hw. destruct (Gen.emitted c toc) as [init|] eqn:Hem.
  - rewrite (writeAssets_renders c toc init w Hw Hem). simpl. eauto.
  - unfold Gen.emitted in Hem.
    destruct (Gen.elements c toc) as [els|] eqn:Hels; [done|].
    unfold Gen.writeAssets. write_step.
    destruct (writeElements_fails c toc
                {| Gen.out := (Gen.out w +:+ imports_text) +:+ map_head_text;
                   Gen.failed := None |} eq_refl Hels)
      as [(pa & err & Hin & Hm & Hr)|(pa & f & err & Hin & Hf & Ho & Hr)];
      destruct (Gen.writeElements c toc _) as [[[e|]|v|] w1]; simpl in *;
      simplify_eq; eauto 10.
Qed.

(** X9: on a writer that has not failed, writeAssets returns nil exactly
    when it has written the text of the whole initializer; an error it
    returns is the MarshalText error of the modification time of an
    entry; a panic is the nil dereference for a file entry that cannot
    be opened. *)
Theorem writeAssets_outcome (c : Gen.Config) (toc : list Gen.pathAsset) (w : Gen.writer) :
  Gen.failed w = None →
  match (Gen.writeAssets c toc w).1 with
  | Returns None =>
      ∃ init, Gen.emitted c toc = Some init
              ∧ Gen.out (Gen.writeAssets c toc w).2 = Gen.out w +:+ render init
  | Returns (Some err) =>
      ∃ pa, pa ∈ toc ∧ MarshalText (modTime_of pa) = Err err
  | Panics v =>
      v = nil_dereference
      ∧ ∃ pa f err, pa ∈ toc ∧ Gen.asset_of pa = Gen.File f
                    ∧ Gen.Open (Gen.Input c) (Gen.path pa) = Err err
  | Diverges => False
  end.
Proof. apply writeAssets_cases. Qed.

End Outcome.

(** * More on Translate *)

Section TranslateMore.
Context {G : GoLib}.

Ltac write_step :=
  unfold Gen.checked, Gen.dropped, Gen.bind, Gen.ret, Gen.panic;
  repeat (rewrite Fprintf_ok by done; cbn [Gen.out Gen.failed]).

Lemma writeAll_preamble c toc w :
  Gen.failed w = None →
  Gen.writeAll c toc w
    = Gen.checked (Gen.writeAssets c toc) (Gen.checked Gen.writeVFS (Gen.ret None))
        {| Gen.out := Gen.out w +:+ preamble c; Gen.failed := None |}.
Proof.
  intros Hw. unfold Gen.writeAll, preamble.
  unfold Gen.checked at 1 2 3. unfold Gen.bind at 1 2 3.
  rewrite Fprintf_ok by done. cbn [Gen.out Gen.failed].
  destruct (decide (Gen.Tags c ≠ EmptyString)).
  - rewrite Fprintf_ok by done. cbn [Gen.out Gen.failed].
    rewrite Fprintf_ok by done. cbn [Gen.out Gen.failed].
    by rewrite !string_app_assoc.
  - unfold Gen.ret at 1. rewrite Fprintf_ok by done. cbn [Gen.out Gen.failed].
    by rewrite !string_app_assoc.
Qed.

Lemma writeAll_renders c toc init w :
  Gen.failed w = None → Gen.emitted c toc = Some init →
  Gen.writeAll c toc w
    = (Returns None,
       {| Gen.out := Gen.out w +:+ preamble c +:+ render init +:+ vfs_text;
          Gen.failed := None |}).
Proof.
  intros Hw Hem. rewrite writeAll_preamble by done.
  unfold Gen.checked at 1. unfold Gen.bind at 1.
  rewrite (writeAssets_renders c toc init) by done.
  unfold Gen.writeVFS. write_step. by rewrite !string_app_assoc.
Qed.


(** X10: when the configuration is valid, the walk returns nil, the
    output file is created and every entry can be emitted, Translate
    returns nil, the log holds the lines of the walk, and the output file
    holds the preamble, the text of the initializer and the code of
    writeVFS, after what the file held. *)
Theorem Translate_writes (fuel : nat) (env : Gen.Env) (c : Gen.Config)
    (st : Gen.walkState) (f : Gen.writer) (init : Rt.initializer) :
  Gen.validate env c = None →
  Gen.findFiles fuel (Gen.Input c) {| Gen.toc := []; Gen.logged := [] |} = Returns (None, st) →
  Gen.os_Create env (Gen.Output c) = Ok f → Gen.failed f = None →
  Gen.emitted c (Gen.toc st) = Some init →
  Gen.Translate fuel env c
    = {| Gen.returned := Returns None;
         Gen.log_lines := Gen.logged st;
         Gen.output := Some (Gen.out f +:+ preamble c +:+ render init +:+ vfs_text) |}.
Proof.
  intros Hval Hwalk Hcreate Hf Hem. unfold Gen.Translate.
  rewrite Hval, Hwalk, Hcreate. by rewrite (writeAll_renders c (Gen.toc st) init f Hf Hem).
Qed.


(** X12: when the root cannot be described, Translate still returns nil:
    it logs one line and writes an initializer with no element, whose map
    is empty, so that Open returns os.ErrNotExist for every path. *)
Theorem Translate_without_root (fuel : nat) (env : Gen.Env) (c : Gen.Config)
    (err : error) (f : Gen.writer) :
  Gen.validate env c = None →
  Gen.Stat (Gen.Input c) "/" = Err err →
  Gen.os_Create env (Gen.Output c) = Ok f → Gen.failed f = None →
  Gen.Translate fuel env c
    = {| Gen.returned := Returns None;
         Gen.log_lines := [cant_stat "/" err];
         Gen.output :=
           Some (Gen.out f +:+ preamble c
                 +:+ render {| Rt.elements := []; Rt.assignments := [] |} +:+ vfs_text) |}
  ∧ Rt.AssetsFS {| Rt.elements := []; Rt.assignments := [] |} = Returns ∅
  ∧ ∀ path, Rt.Open ∅ path = Returns (Err ErrNotExist).
Proof.
  intros Hval Hstat Hcreate Hf. split; [|split; [done|done]].
  unfold Gen.Translate, Gen.findFiles, Gen.Walk. rewrite Hval, Hstat, Hcreate. simpl.
  by rewrite (writeAll_renders c [] {| Rt.elements := []; Rt.assignments := [] |} f Hf).
Qed.



End TranslateMore.

(** * More on the generated map *)

Section Initializer.
Context {G : GoLib} {L : GoLaws G}.














(** ** Open, then Stat *)

Lemma generated_opens c toc init (fs : gmap string Rt.asset) k a :
  Gen.emitted c toc = Some init → Rt.AssetsFS init = Returns fs →
  fs !! k = Some a →
  ∃ h, Rt.Open fs k = Returns (Ok h) ∧ Rt.Stat h = Returns (Ok a).
Proof.
  intros Hem Hfs Ha. pose proof (generated_lookup c toc init fs Hem Hfs k) as Hk.
  rewrite Ha in Hk. destruct Hk as (pa & Hin & <- & Hrec).
  unfold Rt.Open. rewrite Ha. unfold record_of in Hrec.
  destruct (Gen.asset_of pa) as [d|f].
  - destruct Hrec as (es & _ & ->). eauto.
  - destruct Hrec as (bytes & _ & ->). simpl. rewrite gzip_roundtrip. eauto.
Qed.

(** X15: for every entry of the table of contents, Open of its path in
    the generated map followed by Stat gives the base of the path as the
    name, the modification time and the kind that Stat gave in the source
    file system, and as the size 0 for a directory and the size that Stat
    gave for a file. *)
Theorem Open_Stat_metadata (fuel : nat) (c : Gen.Config) (st : Gen.walkState)
    (init : Rt.initializer) (fs : gmap string Rt.asset) (pa : Gen.pathAsset) :
  Gen.findFiles fuel (Gen.Input c) {| Gen.toc := []; Gen.logged := [] |} = Returns (None, st) →
  Gen.emitted c (Gen.toc st) = Some init →
  Rt.AssetsFS init = Returns fs →
  pa ∈ Gen.toc st →
  ∃ fi h a,
    Gen.Stat (Gen.Input c) (Gen.path pa) = Ok fi
    ∧ Rt.Open fs (Gen.path pa) = Returns (Ok h)
    ∧ Rt.Stat h = Returns (Ok a)
    ∧ Rt.Name a = Base (Gen.path pa)
    ∧ Rt.ModTime a = Gen.ModTime fi
    ∧ Rt.IsDir a = Gen.IsDir fi
    ∧ Rt.Size a = (if Gen.IsDir fi then 0 else Gen.Size fi).
Proof.
  intros Hwalk Hem Hfs Hin.
  pose proof (findFiles_described _ _ _ _ Hwalk) as Hdesc.
  pose proof (generated_lookup c _ init fs Hem Hfs (Gen.path pa)) as Hk.
  destruct (fs !! Gen.path pa) as [a|] eqn:Ha.
  2:{ destruct Hk. apply list_elem_of_fmap. eauto. }
  destruct Hk as (pa' & Hin' & Hp & Hrec).
  assert (pa' = pa) as -> by (by eapply (described_unique (Gen.Input c))).
  destruct (generated_opens c _ init fs _ a Hem Hfs Ha) as (h & Hopen & Hst).
  pose proof (Hdesc pa Hin) as He. unfold entry_at in He.
  destruct (Gen.Stat (Gen.Input c) (Gen.path pa)) as [fi|]; [|done].
  exists fi, h, a. repeat (split; [done|]). unfold record_of in Hrec.
  destruct (Gen.IsDir fi).
  - destruct (Gen.readDirPaths _ _); [|done]. injection He as He.
    rewrite <- He in Hrec. simpl in Hrec. by destruct Hrec as (es & _ & ->).
  - injection He as He. rewrite <- He in Hrec. simpl in Hrec.
    by destruct Hrec as (bytes & _ & ->).
Qed.


(** X17: in a generated map, every entry that Readdir of a directory
    returns is a key of the map: Open of it returns a handle, and Stat of
    the handle returns the record under the key. *)
Theorem Readdir_entries_open (c : Gen.Config) (toc : list Gen.pathAsset)
    (init : Rt.initializer) (fs : gmap string Rt.asset) (p : string) (d : Rt.dir) :
  Gen.emitted c toc = Some init → Rt.AssetsFS init = Returns fs →
  fs !! p = Some (Rt.Dir d) →
  ∃ es,
    Rt.Readdir (Rt.DirHandle d) 0 = Returns (Ok es)
    ∧ Forall (λ q, ∃ h a, Rt.Open fs q = Returns (Ok h) ∧ Rt.Stat h = Returns (Ok a)
                          ∧ fs !! q = Some a) es.
Proof.
  intros Hem Hfs Hp. exists (Rt.entries d). split; [done|].
  pose proof (generated_lookup c toc init fs Hem Hfs p) as Hk. rewrite Hp in Hk.
  destruct Hk as (pa & Hin & <- & Hrec). unfold record_of in Hrec.
  destruct (Gen.asset_of pa) as [d0|f0]; [|by destruct Hrec as (? & _ & ?)].
  destruct Hrec as (es & Hes & [= ->]). simpl.
  apply Forall_forall. intros q Hq.
  destruct (generated_resolved c toc init fs (Gen.path pa) es q Hem Hfs Hes Hq) as [a Ha].
  destruct (generated_opens c toc init fs q a Hem Hfs Ha) as (h & Ho & Hs). eauto.
Qed.

End Initializer.

(** * The further properties at the small instance *)

Lemma demo_bounded : bounded Demo.tree 3 "/" (Demo.dir_info "/").
Proof.
  apply (bounded_dir Demo.tree 2 "/" _ [Demo.dir_info "sub"; Demo.file_info "a.txt" 5]);
    [reflexivity..|].
  intros fi fileInfo Hfi Hstat.
  apply elem_of_cons in Hfi as [->|Hfi]; [|apply list_elem_of_singleton in Hfi as ->];
    vm_compute in Hstat; injection Hstat as <-.
  - apply (bounded_dir Demo.tree 1 _ _ [Demo.file_info "b.txt" 5]); [reflexivity..|].
    intros fi fileInfo Hfi Hstat. apply list_elem_of_singleton in Hfi as ->.
    vm_compute in Hstat. injection Hstat as <-. by apply bounded_file.
  - by apply bounded_file.
Qed.

(** X3 at the scenario. *)
Lemma findFiles_returns_witness :
  ∃ r st', Gen.findFiles 5 Demo.tree Demo.start = Returns (r, st').
Proof.
  apply (findFiles_returns Demo.tree 3 (Demo.dir_info "/") 5 Demo.start);
    [reflexivity|exact demo_bounded|lia].
Defined.

Lemma demo_seeded_walked : Gen.findFiles 5 Demo.tree Demo.seeded = Returns (None, Demo.seeded_walked).
Proof.
  vm_cast_no_check (@eq_refl _ (@Returns (option error * Gen.walkState) (None, Demo.seeded_walked))).
Qed.

(** X4 at the scenario, walked from a state that holds an entry and a
    line. *)
Lemma findFiles_continues_witness :
  Gen.toc Demo.seeded `prefix_of` Gen.toc Demo.seeded_walked
  ∧ Gen.logged Demo.seeded `prefix_of` Gen.logged Demo.seeded_walked.
Proof.
  exact (findFiles_continues Demo.tree 5 Demo.seeded None Demo.seeded_walked
           demo_seeded_walked).
Defined.

(** X5 at the scenario. *)
Lemma findFiles_parent_first_witness : parent_first (Gen.toc Demo.walked).
Proof. exact (findFiles_parent_first Demo.tree 5 None Demo.walked demo_walked). Defined.



(** X7 at /a.txt of the scenario. *)
Lemma findFiles_entries_witness :
  (∃ fi,
     Gen.Stat Demo.tree "/a.txt" = Ok fi
     ∧ Gen.IsDir fi = false ∧ Gen.f_name Demo.a_txt_asset = Demo.base "/a.txt"
     ∧ Gen.uncompressedSize Demo.a_txt_asset = Gen.Size fi
     ∧ Gen.f_modTime Demo.a_txt_asset = Gen.ModTime fi)
  ∧ ∀ pa', pa' ∈ Gen.toc Demo.walked → Gen.path pa' = "/a.txt" → pa' = Demo.a_txt_entry.
Proof.
  exact (findFiles_entries Demo.tree 5 None Demo.walked Demo.a_txt_entry
           demo_walked demo_a_txt_listed).
Defined.


(** X9 at the scenario, and at the scenario with /a.txt unreadable. *)
Lemma writeAssets_outcome_witness :
  (∃ init,
     Gen.emitted (Demo.config Demo.tree) (Gen.toc Demo.walked) = Some init
     ∧ Gen.out (Gen.writeAssets (Demo.config Demo.tree) (Gen.toc Demo.walked) Demo.fresh).2
       = Gen.out Demo.fresh +:+ render init)
  ∧ (nil_dereference = nil_dereference
     ∧ ∃ pa f err,
         pa ∈ Gen.toc Demo.walked ∧ Gen.asset_of pa = Gen.File f
         ∧ Gen.Open Demo.unreadable (Gen.path pa) = Err err).
Proof.
  split.
  - vm_cast_no_check
      (writeAssets_outcome (Demo.config Demo.tree) (Gen.toc Demo.walked) Demo.fresh eq_refl).
  - vm_cast_no_check
      (writeAssets_outcome (Demo.config Demo.unreadable) (Gen.toc Demo.walked) Demo.fresh
         eq_refl).
Defined.

(** X10 at the scenario. *)
Lemma Translate_writes_witness :
  Gen.Translate 5 Demo.env (Demo.config Demo.tree)
    = {| Gen.returned := Returns None;
         Gen.log_lines := Gen.logged Demo.walked;
         Gen.output :=
           Some (Gen.out Demo.fresh +:+ preamble (Demo.config Demo.tree)
                 +:+ render Demo.init +:+ vfs_text) |}.
Proof.
  exact (Translate_writes 5 Demo.env (Demo.config Demo.tree) Demo.walked Demo.fresh
           Demo.init eq_refl demo_walked eq_refl eq_refl demo_emitted).
Defined.



(** X12 at the file system in which nothing can be described. *)
Lemma Translate_without_root_witness :
  Gen.Translate 5 Demo.env (Demo.config Demo.nothing)
    = {| Gen.returned := Returns None;
         Gen.log_lines := [cant_stat "/" Demo.no_such_file];
         Gen.output :=
           Some (Gen.out Demo.fresh +:+ preamble (Demo.config Demo.nothing)
                 +:+ render {| Rt.elements := []; Rt.assignments := [] |} +:+ vfs_text) |}
  ∧ Rt.AssetsFS {| Rt.elements := []; Rt.assignments := [] |} = Returns ∅
  ∧ ∀ path, Rt.Open ∅ path = Returns (Err ErrNotExist).
Proof.
  exact (Translate_without_root 5 Demo.env (Demo.config Demo.nothing) Demo.no_such_file
           Demo.fresh eq_refl eq_refl eq_refl eq_refl).
Defined.






(** X15 at /a.txt of the scenario. *)
Lemma Open_Stat_metadata_witness :
  ∃ fi h a,
    Gen.Stat Demo.tree "/a.txt" = Ok fi
    ∧ Rt.Open Demo.assets "/a.txt" = Returns (Ok h)
    ∧ Rt.Stat h = Returns (Ok a)
    ∧ Rt.Name a = Demo.base "/a.txt"
    ∧ Rt.ModTime a = Gen.ModTime fi
    ∧ Rt.IsDir a = Gen.IsDir fi
    ∧ Rt.Size a = (if Gen.IsDir fi then 0 else Gen.Size fi).
Proof.
  exact (Open_Stat_metadata (L := demo_laws) 5 (Demo.config Demo.tree) Demo.walked Demo.init
           Demo.assets Demo.a_txt_entry demo_walked demo_emitted demo_assets
           demo_a_txt_listed).
Defined.


(** X17 at the root of the scenario. *)
Lemma Readdir_entries_open_witness :
  ∃ es,
    Rt.Readdir (Rt.DirHandle Demo.root_dir) 0 = Returns (Ok es)
    ∧ Forall (λ q, ∃ h a, Rt.Open Demo.assets q = Returns (Ok h)
                          ∧ Rt.Stat h = Returns (Ok a) ∧ Demo.assets !! q = Some a) es.
Proof.
  exact (Readdir_entries_open (L := demo_laws) (Demo.config Demo.tree) (Gen.toc Demo.walked)
           Demo.init Demo.assets "/" Demo.root_dir demo_emitted demo_assets demo_root).
Defined.

(** X18 at the scenario. *)
Lemma findFiles_root_first_witness :
  Gen.path Demo.root_entry = "/" ∧ entry_at Demo.tree "/" = Some Demo.root_entry.
Proof.
  exact (findFiles_root_first Demo.tree 5 None Demo.walked Demo.root_entry
           demo_walked eq_refl).
Defined.



